(** * release2chart: a shallow embedding of [pkg/helm/releases.go] and of the
    command in [pkg/cli]

    The program turns a deployed Helm release (a Kubernetes secret holding a
    base64 / gzip / JSON record) back into a chart archive and an optional
    values file.  The Go functions are embedded as Rocq functions over an
    explicit file-system state; the systems the program talks to (the
    cluster, the gzip / JSON / YAML codecs, the packaging routine and the
    failures of the operating system) are the fields of a [World]. *)

From Stdlib Require Import ZArith Ascii String List DecimalString DecimalZ.
From Stdlib Require Import Lia Permutation.
From stdpp Require Import gmap strings list fin_maps.

Local Open Scope string_scope.
Local Open Scope Z_scope.

(** ** Bytes, errors and the outcome of a call *)

Abbreviation byte := Byte.byte.
Abbreviation bytes := (list Byte.byte).

#[global] Instance byte_eq_decision : EqDecision Byte.byte :=
  Byte.byte_eq_dec.

(** [[]byte(s)] and [string(b)]: Go strings are byte sequences. *)
Definition bytes_of (s : string) : bytes := list_byte_of_string s.

(** The two errors of [strconv]: [ErrSyntax] and [ErrRange]. *)
Inductive NumErrKind : Type :=
| ErrSyntax
| ErrRange.

(** Errors: [Fundamental] is a message-only error of
    [github.com/pkg/errors] ([errors.New], [errors.Errorf]) or an error value
    handed back by a library, [Wrap] is [errors.Wrap(cause, msg)], and
    [NumError] is the [*strconv.NumError] with its fields [Func], [Num] and
    [Err]. *)
Inductive error : Type :=
| Fundamental (msg : string)
| Wrap (cause : error) (msg : string)
| NumError (Func Num : string) (Err : NumErrKind).

(** [errors.Cause]: the innermost error of a chain of wraps. *)
Fixpoint Cause (e : error) : error :=
  match e with
  | Wrap c _ => Cause c
  | _ => e
  end.

Definition is_wrapped (e : error) : Prop := exists c m, e = Wrap c m.

(** A Go call either returns its value with a nil error, returns a non-nil
    error, or panics (a nil pointer dereference). *)
Inductive outcome (A : Type) : Type :=
| Ok (a : A)
| Err (e : error)
| Panic.
Arguments Ok {A} a.
Arguments Err {A} e.
Arguments Panic {A}.

(** ** [strconv] *)

Definition int_min : Z := - 2 ^ 63.
Definition int_max : Z := 2 ^ 63 - 1.

Definition digit_of (c : ascii) : option Z :=
  let n := Z.of_N (N_of_ascii c) in
  if (48 <=? n) && (n <=? 57) then Some (n - 48) else None.

Fixpoint parse_digits (acc : Z) (s : string) : option Z :=
  match s with
  | EmptyString => Some acc
  | String c s' =>
      match digit_of c with
      | Some d => parse_digits (acc * 10 + d) s'
      | None => None
      end
  end.

(** The value [strconv.Atoi] parses, [None] where it reports an error: an
    optional sign, at least one decimal digit, nothing else, and a value that
    fits the 64-bit [int]. *)
Definition parse_int (s : string) : option Z :=
  match s with
  | EmptyString => None
  | String c rest =>
      let neg := Ascii.eqb c "-" in
      let body := if neg || Ascii.eqb c "+" then rest else s in
      match body with
      | EmptyString => None
      | _ =>
          match parse_digits 0 body with
          | Some n =>
              let v := if neg then - n else n in
              if (int_min <=? v) && (v <=? int_max) then Some v else None
          | None => None
          end
      end
  end.

(** The largest [uint64], and the bound above which another digit
    overflows it. *)
Definition maxUint64 : Z := 2 ^ 64 - 1.
Definition cutoff : Z := maxUint64 / 10 + 1.

(** The scan of [strconv.ParseUint] over the digits of a string that does not
    parse: a character that is no digit is a syntax error, a value that
    leaves the [uint64] is a range error where the scan meets it, and digits
    that stay within it are out of the range of [int]. *)
Fixpoint scan_error (n : Z) (s : string) : NumErrKind :=
  match s with
  | EmptyString => ErrRange
  | String c s' =>
      match digit_of c with
      | None => ErrSyntax
      | Some d =>
          if n >=? cutoff then ErrRange
          else if n * 10 + d >? maxUint64 then ErrRange
          else scan_error (n * 10 + d) s'
      end
  end.

(** The error of [strconv.Atoi] on a string it does not parse. *)
Definition atoi_error (s : string) : NumErrKind :=
  match s with
  | EmptyString => ErrSyntax
  | String c rest =>
      let body :=
        if Ascii.eqb c "-" || Ascii.eqb c "+" then rest else s in
      match body with
      | EmptyString => ErrSyntax
      | _ => scan_error 0 body
      end
  end.

Definition Atoi (s : string) : error + Z :=
  match parse_int s with
  | Some v => inr v
  | None => inl (NumError "Atoi" s (atoi_error s))
  end.

(** [strconv.Itoa]: the decimal rendering, with a leading [-] below zero. *)
Definition Itoa (z : Z) : string := NilZero.string_of_int (Z.to_int z).

(** ** [path/filepath] (Unix) *)

(** The elements of a path between its separators. *)
Fixpoint path_elements (s : string) : list string :=
  match s with
  | EmptyString => [EmptyString]
  | String c s' =>
      if Ascii.eqb c "/" then EmptyString :: path_elements s'
      else match path_elements s' with
           | h :: t => String c h :: t
           | [] => [String c EmptyString]
           end
  end.

Definition is_rooted (p : string) : bool :=
  match p with
  | String c _ => Ascii.eqb c "/"
  | EmptyString => false
  end.

(** One element of the scan of [filepath.Clean]; [out] holds the elements
    kept so far, the last one first. *)
Definition clean_step (rooted : bool) (out : list string) (e : string)
  : list string :=
  if String.eqb e "" then out
  else if String.eqb e "." then out
  else if String.eqb e ".." then
    match out with
    | top :: below =>
        if String.eqb top ".." then ".." :: out else below
    | [] => if rooted then [] else [".."]
    end
  else e :: out.

Definition Clean (path : string) : string :=
  let rooted := is_rooted path in
  let out := rev (fold_left (clean_step rooted) (path_elements path) []) in
  match out, rooted with
  | [], false => "."
  | _, false => String.concat "/" out
  | _, true => "/" +:+ String.concat "/" out
  end.

(** [filepath.Join(a, b)]: empty leading elements are dropped, the rest is
    joined with the separator and cleaned. *)
Definition Join (a b : string) : string :=
  if negb (String.eqb a "") then Clean (a +:+ "/" +:+ b)
  else if negb (String.eqb b "") then Clean b
  else "".

(** The part of [path] up to and including its last separator. *)
Fixpoint upto_last_slash (path : string) : string :=
  match path with
  | EmptyString => EmptyString
  | String c s' =>
      let r := upto_last_slash s' in
      if Ascii.eqb c "/" then String c r
      else if String.eqb r "" then EmptyString else String c r
  end.

Definition Dir (path : string) : string := Clean (upto_last_slash path).

Fixpoint strip_trailing_slashes (path : string) : string :=
  match path with
  | EmptyString => EmptyString
  | String c s' =>
      let r := strip_trailing_slashes s' in
      if Ascii.eqb c "/" && String.eqb r "" then EmptyString else String c r
  end.

(** [filepath.Base]: the last element of the path; [.] for the empty path and
    [/] for a path of separators only. *)
Definition Base (path : string) : string :=
  if String.eqb path "" then "."
  else
    let p := strip_trailing_slashes path in
    let last_elem := List.last (path_elements p) "" in
    if String.eqb last_elem "" then "/" else last_elem.

(** ** [encoding/base64], [StdEncoding] *)

Definition u8 (b : byte) : Z := Z.of_N (Byte.to_N b).

(** The conversion [byte(x)] of an unsigned integer: its low eight bits. *)
Definition byte_of_Z (z : Z) : byte :=
  match Byte.of_N (Z.to_N (Z.land z 255)) with
  | Some b => b
  | None => Byte.x00
  end.

Definition encodeStd : bytes :=
  bytes_of "ABCDEFGHIJKLMNOPQRSTUVWXYZabcdefghijklmnopqrstuvwxyz0123456789+/".

Definition padChar : byte := Byte.x3d.

(** [enc.encode[i]] *)
Definition encode_char (i : Z) : byte := nth (Z.to_nat i) encodeStd Byte.x00.

Fixpoint index_of (c : byte) (l : bytes) (i : Z) : option Z :=
  match l with
  | [] => None
  | x :: l' => if Byte.eqb c x then Some i else index_of c l' (i + 1)
  end.

(** [enc.decodeMap[c]], [None] for the entries holding [0xff]. *)
Definition decode_char (c : byte) : option Z := index_of c encodeStd 0.

(** [Encoding.Encode]: three bytes become four characters; a last group of
    one or two bytes is padded with [=]. *)
Fixpoint base64_encode (src : bytes) : bytes :=
  match src with
  | [] => []
  | [b0] =>
      let val := Z.shiftl (u8 b0) 16 in
      [encode_char (Z.land (Z.shiftr val 18) 63);
       encode_char (Z.land (Z.shiftr val 12) 63);
       padChar; padChar]
  | [b0; b1] =>
      let val := Z.lor (Z.shiftl (u8 b0) 16) (Z.shiftl (u8 b1) 8) in
      [encode_char (Z.land (Z.shiftr val 18) 63);
       encode_char (Z.land (Z.shiftr val 12) 63);
       encode_char (Z.land (Z.shiftr val 6) 63);
       padChar]
  | b0 :: b1 :: b2 :: rest =>
      let val :=
        Z.lor (Z.lor (Z.shiftl (u8 b0) 16) (Z.shiftl (u8 b1) 8)) (u8 b2) in
      encode_char (Z.land (Z.shiftr val 18) 63)
        :: encode_char (Z.land (Z.shiftr val 12) 63)
        :: encode_char (Z.land (Z.shiftr val 6) 63)
        :: encode_char (Z.land val 63)
        :: base64_encode rest
  end.

(** An [io.Reader] read to its end: the bytes it delivers, and the error it
    ends with when that is not [io.EOF]. *)
Definition Stream : Type := bytes * option error.

Definition CorruptInputError : error := Fundamental "illegal base64 data".

Definition quantum_val (d0 d1 d2 d3 : Z) : Z :=
  Z.lor (Z.lor (Z.lor (Z.shiftl d0 18) (Z.shiftl d1 12)) (Z.shiftl d2 6)) d3.

(** [Encoding.Decode] on input without line breaks, four characters at a
    time.  Padding ends the input: data after it is corrupt, and so is a
    group of fewer than four characters.  The bytes decoded before the
    failure are delivered. *)
Fixpoint decode_quanta (src : bytes) : Stream :=
  match src with
  | [] => ([], None)
  | c0 :: c1 :: c2 :: c3 :: rest =>
      match decode_char c0, decode_char c1 with
      | Some d0, Some d1 =>
          match decode_char c2, decode_char c3 with
          | Some d2, Some d3 =>
              let val := quantum_val d0 d1 d2 d3 in
              let '(out, e) := decode_quanta rest in
              (byte_of_Z (Z.shiftr val 16) :: byte_of_Z (Z.shiftr val 8)
                 :: byte_of_Z val :: out, e)
          | Some d2, None =>
              if Byte.eqb c3 padChar then
                let val := quantum_val d0 d1 d2 0 in
                ([byte_of_Z (Z.shiftr val 16); byte_of_Z (Z.shiftr val 8)],
                 match rest with
                 | [] => None
                 | _ => Some CorruptInputError
                 end)
              else ([], Some CorruptInputError)
          | None, _ =>
              if Byte.eqb c2 padChar && Byte.eqb c3 padChar then
                let val := quantum_val d0 d1 0 0 in
                ([byte_of_Z (Z.shiftr val 16)],
                 match rest with
                 | [] => None
                 | _ => Some CorruptInputError
                 end)
              else ([], Some CorruptInputError)
          end
      | _, _ => ([], Some CorruptInputError)
      end
  | _ => ([], Some CorruptInputError)
  end.

Definition is_newline (c : byte) : bool :=
  Byte.eqb c Byte.x0a || Byte.eqb c Byte.x0d.

(** [base64.NewDecoder(base64.StdEncoding, bytes.NewReader(data))], read to
    its end: line breaks are filtered out, the rest is decoded.  The reader's
    buffering is not modelled: the stream is the decoding of the whole
    input. *)
Definition base64_NewDecoder (data : bytes) : Stream :=
  decode_quanta (List.filter (fun c => negb (is_newline c)) data).

(** [ioutil.ReadAll] *)
Definition ReadAll (r : Stream) : error + bytes :=
  match snd r with
  | Some e => inl e
  | None => inr (fst r)
  end.

(** ** [encoding/json] on a byte slice *)

(** [json.Marshal] of a [[]byte]: [null] for the nil slice, else the base64
    text of the bytes between double quotes.  It never fails. *)
Definition json_Marshal_bytes (b : option bytes) : error + bytes :=
  match b with
  | None => inr (bytes_of "null")
  | Some bs => inr (Byte.x22 :: base64_encode bs ++ [Byte.x22])
  end.

(** ** The data model: secrets, releases and charts *)

#[local] Set Warnings "-register-all".

(** A decoded YAML / JSON value ([interface{}]); a number is held as the bit
    pattern of its [float64]. *)
Inductive Value : Type :=
| VNull
| VBool (b : bool)
| VNumber (bits : Z)
| VString (s : string)
| VList (l : list Value)
| VMap (m : gmap string Value).

Module chart.

(** [chart.File] *)
Record File : Type := { Name : string; Data : bytes }.

(** [chart.Metadata], the contents of Chart.yaml.  The program only hands
    it to the YAML serializer; the fields not listed play no role. *)
Record Metadata : Type := {
  MName : string;
  Version : string;
  Description : string;
  APIVersion : string;
  AppVersion : string;
  Type_ : string;
  Keywords : list string;
}.

(** [chart.Chart]: [Templates] and [Files] are slices of pointers;
    [Schema] holds the raw bytes of values.schema.json and is nil for a
    chart without one. *)
Record Chart : Type := {
  Metadata_ : option Metadata;
  Templates : list (option File);
  Values : gmap string Value;
  Schema : option bytes;
  Files : list (option File);
}.

End chart.

Module helmrelease.

(** [release.Release]: the chart (a pointer, possibly nil) and the
    override values it was installed with. *)
Record Release : Type := {
  Name : string;
  Chart : option chart.Chart;
  Config : gmap string Value;
  Version : Z;
  Namespace : string;
}.

End helmrelease.

Module corev1.

(** [corev1.Secret]: its labels and its data. *)
Record Secret : Type := {
  Labels : gmap string string;
  Data : gmap string bytes;
}.

End corev1.

(** ** The file system *)

(** Regular files and directories, by absolute cleaned path. *)
Record FS : Type := {
  files : gmap string bytes;
  dirs : gset string;
}.

(** [p] is [d] or lies below it. *)
Definition under (d p : string) : bool :=
  String.eqb p d || String.prefix (d +:+ "/") p.

Definition fs_paths (fs : FS) : list string :=
  (map_to_list (files fs)).*1 ++ elements (dirs fs).

(** Something exists at [d] or below it. *)
Definition occupied (d : string) (fs : FS) : bool :=
  existsb (under d) (fs_paths fs).

(** [d] and its parents, up to the root. *)
Fixpoint dir_chain (fuel : nat) (d : string) : list string :=
  match fuel with
  | O => [d]
  | S fuel' =>
      if String.eqb (Dir d) d then [d] else d :: dir_chain fuel' (Dir d)
  end.

Definition fs_write (p : string) (data : bytes) (fs : FS) : FS :=
  {| files := <[p := data]> (files fs); dirs := dirs fs |}.

Definition fs_mkdir_all (d : string) (fs : FS) : FS :=
  {| files := files fs;
     dirs := list_to_set (dir_chain (String.length d) d) ∪ dirs fs |}.

Definition fs_remove_all (d : string) (fs : FS) : FS :=
  {| files := filter (fun kv => under d kv.1 = false) (files fs);
     dirs := filter (fun k => under d k = false) (dirs fs) |}.

(** ** The world outside the program *)

(** The label selector built by [labels.SelectorFromSet]: a secret matches
    when it carries every label of the set with the same value.  The text
    the selector is sent as, and its parsing by the server, are not
    modelled: the list call selects by the label set itself. *)
Definition SelectorFromSet (set : gmap string string) : gmap string string :=
  set.

Definition selects (selector : gmap string string) (s : corev1.Secret)
  : bool :=
  bool_decide (selector ⊆ corev1.Labels s).

(** The clientset of [GetClientset]: the secrets stored in each namespace
    and the failures of a list call. *)
Record Clientset : Type := {
  stored : string -> list corev1.Secret;
  List_fault : string -> gmap string string -> option error;
}.

(** [clientSet.CoreV1().Secrets(namespace).List(ctx, listOpts)] *)
Definition Secrets_List (cs : Clientset) (namespace : string)
    (selector : gmap string string) : error + list corev1.Secret :=
  match List_fault cs namespace selector with
  | Some e => inl e
  | None => inr (List.filter (selects selector) (stored cs namespace))
  end.

(** A failed [ioutil.WriteFile]: the error, and what the call left at the
    path ([None] when the file was not opened, else the bytes written before
    the failure; the file is opened with [O_TRUNC]). *)
Record WriteFault : Type := {
  write_error : error;
  write_left : option bytes;
}.

Record World : Type := {
  (** [GetClientset()], defined elsewhere in package [helm] *)
  GetClientset : error + Clientset;
  (** [gzip.NewReader]: an error for a bad header, else the reader of the
      decompressed data *)
  gzip_NewReader : Stream -> error + Stream;
  (** [json.Unmarshal] into a [**release.Release]; JSON [null] leaves a nil
      pointer *)
  json_Unmarshal : bytes -> error + option helmrelease.Release;
  (** [yaml.Marshal] of a [*chart.Metadata] and of a values map *)
  yaml_Marshal_metadata : option chart.Metadata -> error + bytes;
  yaml_Marshal_values : gmap string Value -> error + bytes;
  (** the working directory of the process *)
  cwd : string;
  (** the directory [ioutil.TempDir] picks: [os.TempDir()], the prefix and a
      random suffix *)
  tempdir_name : string -> FS -> string;
  (** failures of the operating-system calls *)
  TempDir_fault : FS -> option error;
  MkdirAll_fault : FS -> string -> option error;
  WriteFile_fault : FS -> string -> bytes -> option WriteFault;
  (** [action.Package.Run] on a chart directory: an error, or the name and
      the bytes of the archive it saves *)
  package_Run : FS -> string -> error + (string * bytes);
}.

(** ** State and error passing *)

Definition M (A : Type) : Type := FS -> outcome A * FS.

Definition ret {A} (a : A) : M A := fun fs => (Ok a, fs).

Definition bind {A B} (m : M A) (k : A -> M B) : M B :=
  fun fs =>
    match m fs with
    | (Ok a, fs') => k a fs'
    | (Err e, fs') => (Err e, fs')
    | (Panic, fs') => (Panic, fs')
    end.

Notation "'let*' x ':=' m 'in' k" := (bind m (fun x => k))
  (at level 10, x name, m at level 100, k at level 200, only parsing).

Definition throw {A} (e : error) : M A := fun fs => (Err e, fs).

Definition panic {A} : M A := fun fs => (Panic, fs).

(** A call without effect on the file system. *)
Definition lift {A} (r : error + A) : M A :=
  fun fs => (match r with inl e => Err e | inr a => Ok a end, fs).

(** [if err != nil { return errors.Wrap(err, msg) }] *)
Definition wrap {A} (msg : string) (m : M A) : M A :=
  fun fs =>
    match m fs with
    | (Err e, fs') => (Err (Wrap e msg), fs')
    | r => r
    end.

(** [defer cleanup]: runs when the function leaves, however it leaves. *)
Definition defer {A} (cleanup : FS -> FS) (m : M A) : M A :=
  fun fs => let '(r, fs') := m fs in (r, cleanup fs').

(** A path as the operating system resolves it. *)
Definition resolve (w : World) (p : string) : string :=
  if is_rooted p then Clean p else Join (cwd w) p.

(** [ioutil.TempDir(dir, prefix)] creates a directory that did not exist and
    returns its path. *)
Definition ioutil_TempDir (w : World) (prefix : string) : M string :=
  fun fs =>
    match TempDir_fault w fs with
    | Some e => (Err e, fs)
    | None =>
        let name := tempdir_name w prefix fs in
        if occupied (resolve w name) fs
        then (Err (Fundamental "file exists"), fs)
        else (Ok name,
              {| files := files fs;
                 dirs := {[resolve w name]} ∪ dirs fs |})
    end.

(** [os.RemoveAll(path)], taken to succeed: the program drops its error,
    and a removal that fails is not modelled. *)
Definition os_RemoveAll (w : World) (path : string) (fs : FS) : FS :=
  fs_remove_all (resolve w path) fs.

Definition os_MkdirAll (w : World) (path : string) : M unit :=
  fun fs =>
    match MkdirAll_fault w fs (resolve w path) with
    | Some e => (Err e, fs)
    | None => (Ok tt, fs_mkdir_all (resolve w path) fs)
    end.

Definition ioutil_WriteFile (w : World) (filename : string) (data : bytes)
  : M unit :=
  fun fs =>
    let p := resolve w filename in
    match WriteFile_fault w fs p data with
    | Some f =>
        (Err (write_error f),
         match write_left f with
         | Some part => fs_write p part fs
         | None => fs
         end)
    | None => (Ok tt, fs_write p data fs)
    end.

(** [client.Run(path, nil)] of an [action.Package] with the given
    [Destination]: the archive is saved in the destination directory and its
    path is returned; a failed run leaves no archive. *)
Definition action_Package_Run (w : World) (destination path : string)
  : M string :=
  fun fs =>
    match package_Run w fs (resolve w path) with
    | inl e => (Err e, fs)
    | inr (name, archive) =>
        let file := Join (resolve w destination) name in
        (Ok file, fs_write file archive fs)
    end.

(** ** [pkg/helm/releases.go] *)

(** [secret.Labels["version"]]: the empty string for a missing key. *)
Definition version_label (secret : corev1.Secret) : string :=
  default "" (corev1.Labels secret !! "version").

(** One turn of the loop of [FindLatestReleaseVersion]. *)
Definition latest_step (latestRevision : Z) (secret : corev1.Secret) : Z :=
  match Atoi (version_label secret) with
  | inl _ => latestRevision
  | inr revision =>
      if revision >? latestRevision then revision else latestRevision
  end.

(** The label set [{"owner": "helm", "name": releaseName}]. *)
Definition release_labels (releaseName : string) : gmap string string :=
  <["owner" := "helm"]> (<["name" := releaseName]> ∅).

Definition FindLatestReleaseVersion (w : World)
    (namespace releaseName : string) : outcome Z :=
  match GetClientset w with
  | inl err => Err (Wrap err "get clientset")
  | inr clientSet =>
      let selectorLabels := release_labels releaseName in
      let listOpts := SelectorFromSet selectorLabels in
      match Secrets_List clientSet namespace listOpts with
      | inl err => Err (Wrap err "list secrets")
      | inr items => Ok (fold_left latest_step items 0)
      end
  end.

Definition helmReleaseFromReleaseData (w : World) (data : bytes)
  : outcome (option helmrelease.Release) :=
  let base64Reader := base64_NewDecoder data in
  match gzip_NewReader w base64Reader with
  | inl err => Err (Wrap err "create gzip reader")
  | inr gzreader =>
      match ReadAll gzreader with
      | inl err => Err (Wrap err "read from gzip reader")
      | inr releaseData =>
          match json_Unmarshal w releaseData with
          | inl err => Err (Wrap err "unmarshal release data")
          | inr release => Ok release
          end
      end
  end.

Module save.

(** The local type [chartFile] of [saveReleaseToFiles]. *)
Record chartFile : Type := { Name : string; Data : bytes }.

End save.

(** The two loops that copy the chart's files and templates; a nil entry
    makes the field access panic ([None]). *)
Fixpoint collect (l : list (option chart.File)) (files : list save.chartFile)
  : option (list save.chartFile) :=
  match l with
  | [] => Some files
  | None :: _ => None
  | Some file :: l' =>
      collect l'
        (files ++ [{| save.Name := chart.Name file;
                      save.Data := chart.Data file |}])
  end.

(** The last loop of [saveReleaseToFiles]. *)
Fixpoint write_files (w : World) (destDir : string)
    (files : list save.chartFile) : M unit :=
  match files with
  | [] => ret tt
  | chartFile :: rest =>
      let fileName := Join destDir (save.Name chartFile) in
      let dir := Dir fileName in
      let* _ := wrap ("create dir " +:+ dir) (os_MkdirAll w dir) in
      let* _ := wrap ("write file " +:+ fileName)
                (ioutil_WriteFile w fileName (save.Data chartFile)) in
      write_files w destDir rest
  end.

(** The list of files [saveReleaseToFiles] builds before it writes. *)
Definition chart_files (w : World) (c : chart.Chart)
  : M (list save.chartFile) :=
  match collect (chart.Files c) [] with
  | None => panic
  | Some files =>
      match collect (chart.Templates c) files with
      | None => panic
      | Some files =>
          let* chartMetadata :=
            wrap "marshal chart metadata"
              (lift (yaml_Marshal_metadata w (chart.Metadata_ c))) in
          let files :=
            (files ++ [{| save.Name := "Chart.yaml";
                          save.Data := chartMetadata |}])%list in
          let* chartValues :=
            wrap "marshal chart values"
              (lift (yaml_Marshal_values w (chart.Values c))) in
          let files :=
            (files ++ [{| save.Name := "values.yaml";
                          save.Data := chartValues |}])%list in
          let* chartValuesSchema :=
            wrap "marshal chart values schema"
              (lift (json_Marshal_bytes (chart.Schema c))) in
          let files :=
            (files ++ [{| save.Name := "values.schema.json";
                          save.Data := chartValuesSchema |}])%list in
          ret files
      end
  end.

Definition saveReleaseToFiles (w : World)
    (release : option helmrelease.Release) (destDir : string) : M unit :=
  match release with
  | None => panic
  | Some release =>
      match helmrelease.Chart release with
      | None => panic
      | Some c =>
          let* files := chart_files w c in
          write_files w destDir files
      end
  end.

(** [errors.Errorf("found %d matching releases", n)] *)
Definition found_matching (n : nat) : error :=
  Fundamental ("found " +:+ Itoa (Z.of_nat n) +:+ " matching releases").

(** [secrets.Items[0].Data["release"]]: nil for a missing key. *)
Definition release_data (secret : corev1.Secret) : bytes :=
  default [] (corev1.Data secret !! "release").

(** The label set
    [{"owner": "helm", "name": releaseName, "version": strconv.Itoa(revision)}]. *)
Definition revision_labels (releaseName : string) (revision : Z)
  : gmap string string :=
  <["owner" := "helm"]>
    (<["name" := releaseName]> (<["version" := Itoa revision]> ∅)).

(** The end of [ConvertReleaseVersion], from [action.NewPackage()] on: the
    archive, then the values file when there are override values. *)
Definition package_outputs (w : World) (dstDir : string)
    (helmRelease : option helmrelease.Release) (releaseDir : string)
  : M (string * string) :=
  let* chartFile :=
    wrap "package client run" (action_Package_Run w dstDir releaseDir) in
  match helmRelease with
  | None => panic
  | Some release =>
      let* valuesFile :=
        (if negb (Nat.eqb (size (helmrelease.Config release)) 0) then
           let valuesFile := Join dstDir "values.yaml" in
           let* configData :=
             wrap "marshal config data"
               (lift (yaml_Marshal_values w (helmrelease.Config release))) in
           let* _ := wrap "write values file"
                       (ioutil_WriteFile w valuesFile configData) in
           ret valuesFile
         else ret "") in
      ret (Base chartFile, Base valuesFile)
  end.

Definition ConvertReleaseVersion (w : World)
    (namespace releaseName : string) (revision : Z) : M (string * string) :=
  let dstDir := "." in
  let* clientSet := wrap "get clientset" (lift (GetClientset w)) in
  let selectorLabels := revision_labels releaseName revision in
  let listOpts := SelectorFromSet selectorLabels in
  let* items :=
    wrap "list secrets" (lift (Secrets_List clientSet namespace listOpts)) in
  if negb (Nat.eqb (length items) 1) then
    throw (found_matching (length items))
  else
    match items with
    | [] => panic
    | item0 :: _ =>
        let* helmRelease :=
          wrap "parse release info from secret"
            (fun fs =>
               (helmReleaseFromReleaseData w (release_data item0), fs)) in
        let* releaseDir :=
          wrap "create temp dir" (ioutil_TempDir w "helm-release-") in
        defer (os_RemoveAll w releaseDir)
          (let* _ := wrap "save release to files"
                       (saveReleaseToFiles w helmRelease releaseDir) in
           package_outputs w dstDir helmRelease releaseDir)
    end.

(** ** [pkg/cli]: the command *)

(** What the command line gives [RunE]: the positional arguments and the
    values of the [namespace] and [revision] flags. *)
Record Invocation : Type := {
  args : list string;
  flag_namespace : string;
  flag_revision : string;
}.

(** [strings.Join(command, " ")] *)
Definition strings_Join (l : list string) : string := String.concat " " l.

(** [RunE]; its value is the text printed to standard output. *)
Definition RunE (w : World) (inv : Invocation) : M (list string) :=
  match args inv with
  | [] => throw (Fundamental "release name is required")
  | releaseName :: _ =>
      let namespace := flag_namespace inv in
      let* revision :=
        (if negb (String.eqb (flag_revision inv) "") then
           wrap "parse revision" (lift (Atoi (flag_revision inv)))
         else
           wrap "find latest revision"
             (fun fs =>
                (FindLatestReleaseVersion w namespace releaseName, fs))) in
      let* out :=
        wrap "convert release"
          (ConvertReleaseVersion w namespace releaseName revision) in
      let '(chartFile, valuesFile) := out in
      let command := ["helm"; "install"; releaseName; chartFile] in
      let command :=
        if negb (String.eqb valuesFile "")
        then (command ++ ["--values"; valuesFile])%list else command in
      let command := (command ++ ["--namespace"; namespace])%list in
      ret ["Chart has been saved to " +:+ chartFile;
           "To install the chart, run the following command:";
           "";
           strings_Join command;
           ""]
  end.

(** What cobra makes of the command line before [RunE]: it answers it
    itself (the help flag, a shell-completion request), printing [out] and
    returning nil without calling [RunE]; it refuses it (a flag it cannot
    parse); or it calls [RunE] with the arguments and flags. *)
Inductive CommandLine : Type :=
| Answered (out : list string)
| Refused (e : error)
| Invoke (inv : Invocation).

Coercion Invoke : Invocation >-> CommandLine.

(** [RootCmd().Execute()]; its value is the text printed to standard
    output. *)
Definition Execute (w : World) (cl : CommandLine) : M (list string) :=
  match cl with
  | Answered out => ret out
  | Refused e => throw e
  | Invoke inv => RunE w inv
  end.

(** What is left of a run of the process: [top_error] is the error
    [Execute] returns, [stderr] the errors cobra prints on standard error,
    each after [Error:] (the command sets [SilenceUsage]).  The trace the
    runtime prints for a panic is not modelled. *)
Record Exit : Type := {
  status : Z;
  stdout : list string;
  stderr : list error;
  top_error : option error;
  left_fs : FS;
}.

(** [InitAndExecute]: [os.Exit(1)] when the command returns an error; the
    runtime ends a panicking process with status 2. *)
Definition InitAndExecute (w : World) (cl : CommandLine) (fs : FS) : Exit :=
  match Execute w cl fs with
  | (Ok out, fs') =>
      {| status := 0; stdout := out; stderr := []; top_error := None;
         left_fs := fs' |}
  | (Err err, fs') =>
      {| status := 1; stdout := []; stderr := [err]; top_error := Some err;
         left_fs := fs' |}
  | (Panic, fs') =>
      {| status := 2; stdout := []; stderr := []; top_error := None;
         left_fs := fs' |}
  end.

(** ** Notions used in the statements *)

(** The revisions the loop of [FindLatestReleaseVersion] reads off a list of
    secrets: the version labels that parse. *)
Definition label_revisions (items : list corev1.Secret) : list Z :=
  omap (fun s => parse_int (version_label s)) items.

Definition has_revision (s : corev1.Secret) : bool :=
  bool_decide (is_Some (parse_int (version_label s))).

(** [m] is the greatest element of [l]. *)
Definition is_maximum (m : Z) (l : list Z) : Prop :=
  In m l /\ forall x, In x l -> x <= m.

(** The non-nil entries of a slice of file pointers. *)
Definition present (l : list (option chart.File)) : list chart.File :=
  omap id l.

(** The names [saveReleaseToFiles] writes for a chart, in the order it writes
    them. *)
Definition chart_names (c : chart.Chart) : list string :=
  (map chart.Name (present (chart.Files c))
     ++ map chart.Name (present (chart.Templates c))
     ++ ["Chart.yaml"; "values.yaml"; "values.schema.json"])%list.

(** Where a file of the chart lands when the tree is written below [d]. *)
Definition tree_path (w : World) (d name : string) : string :=
  resolve w (Join d name).

(** What a release keeps of the values.schema.json of the chart it was
    installed from: Helm's loader stores the bytes of that file in [Schema],
    and leaves [Schema] nil for a chart without the file. *)
Definition original_schema (c : chart.Chart) : option bytes := chart.Schema c.

(** A path element that is a plain name: not empty, not [.] or [..], and
    without separator. *)
Definition plain_name (n : string) : Prop :=
  n <> "" /\ n <> "." /\ n <> ".." /\ path_elements n = [n].

(** The run of [ConvertReleaseVersion] from [fs] decodes a release with chart
    [c] and creates the temporary directory [d]. *)
Definition reaches_tree (w : World) (namespace releaseName : string)
    (revision : Z) (fs : FS) (release : option helmrelease.Release)
    (d : string) (fs1 : FS) : Prop :=
  exists cs item0,
    GetClientset w = inr cs
    /\ Secrets_List cs namespace (revision_labels releaseName revision)
       = inr [item0]
    /\ helmReleaseFromReleaseData w (release_data item0) = Ok release
    /\ ioutil_TempDir w "helm-release-" fs = (Ok d, fs1).

(** [p] is where a file of the decoded chart is written, outside the
    temporary directory: its name resolves out of it. *)
Definition escaped_chart_file (w : World) (namespace releaseName : string)
    (revision : Z) (fs : FS) (p : string) : Prop :=
  exists release c d fs1 n,
    reaches_tree w namespace releaseName revision fs (Some release) d fs1
    /\ helmrelease.Chart release = Some c
    /\ In n (chart_names c)
    /\ p = tree_path w d n
    /\ under (resolve w d) p = false.

(** The files [saveReleaseToFiles] writes carry the names and the bytes of
    the chart's files. *)
Definition as_chartFile (f : chart.File) : save.chartFile :=
  {| save.Name := chart.Name f; save.Data := chart.Data f |}.

(** The revision [RunE] converts: the one of the flag, or the latest. *)
Definition chosen_revision (w : World) (inv : Invocation)
    (releaseName : string) (revision : Z) : Prop :=
  if String.eqb (flag_revision inv) "" then
    FindLatestReleaseVersion w (flag_namespace inv) releaseName = Ok revision
  else Atoi (flag_revision inv) = inr revision.

(** [p] is where [action.Package.Run] saves an archive in the working
    directory. *)
Definition archive_path (w : World) (p : string) : Prop :=
  exists fs2 d name archive,
    package_Run w fs2 d = inr (name, archive)
    /\ p = Join (resolve w ".") name.

(** The last element of the path [p] is [n]. *)
Definition ends_with (n p : string) : Prop :=
  exists l, path_elements p = (l ++ [n])%list.

(** The files after an entry of the last loop of [saveReleaseToFiles] went
    through: the entry's bytes at the entry's path. *)
Definition put_entry (w : World) (d : string)
    (m : gmap string bytes) (f : save.chartFile) : gmap string bytes :=
  <[tree_path w d (save.Name f) := save.Data f]> m.

(** The values-file step of [package_outputs]. *)
Definition values_step (w : World) (dstDir : string)
    (release : helmrelease.Release) : M string :=
  if negb (Nat.eqb (size (helmrelease.Config release)) 0) then
    let valuesFile := Join dstDir "values.yaml" in
    bind (wrap "marshal config data"
            (lift (yaml_Marshal_values w (helmrelease.Config release))))
      (fun configData =>
         bind (wrap "write values file"
                 (ioutil_WriteFile w valuesFile configData))
           (fun _ => ret valuesFile))
  else ret "".

(** A cluster call of [FindLatestReleaseVersion] fails with [e0]; the second
    error is [e0] under the context message the function gives it. *)
Inductive find_call_fails (w : World) (namespace releaseName : string)
  : error -> error -> Prop :=
| find_clientset_fails e0 :
    GetClientset w = inl e0 ->
    find_call_fails w namespace releaseName e0 (Wrap e0 "get clientset")
| find_list_fails cs e0 :
    GetClientset w = inr cs ->
    Secrets_List cs namespace (release_labels releaseName) = inl e0 ->
    find_call_fails w namespace releaseName e0 (Wrap e0 "list secrets").

(** The files [saveReleaseToFiles] is about to write for the release of the
    run, when it reaches its last loop in the temporary directory [d]. *)
Definition reaches_writes (w : World) (namespace releaseName : string)
    (revision : Z) (fs : FS) (d : string) (fs1 : FS)
    (files : list save.chartFile) : Prop :=
  exists release c,
    reaches_tree w namespace releaseName revision fs (Some release) d fs1
    /\ helmrelease.Chart release = Some c
    /\ chart_files w c fs1 = (Ok files, fs1).

(** The run of [ConvertReleaseVersion] from [fs] saved the tree in [d] and
    packaged it from the state [fs2] into the archive [name]. *)
Definition reaches_values (w : World) (namespace releaseName : string)
    (revision : Z) (fs : FS) (release : helmrelease.Release) (fs2 : FS)
    (name : string) (archive : bytes) : Prop :=
  exists d fs1,
    reaches_tree w namespace releaseName revision fs (Some release) d fs1
    /\ saveReleaseToFiles w (Some release) d fs1 = (Ok tt, fs2)
    /\ package_Run w fs2 (resolve w d) = inr (name, archive)
    /\ size (helmrelease.Config release) <> 0%nat.

(** An external call of [ConvertReleaseVersion] fails with [e0] in the run
    from [fs]; the second error is [e0] under the context messages the
    functions on the way give it. *)
Inductive convert_call_fails (w : World) (namespace releaseName : string)
    (revision : Z) (fs : FS) : error -> error -> Prop :=
| clientset_fails e0 :
    GetClientset w = inl e0 ->
    convert_call_fails w namespace releaseName revision fs e0
      (Wrap e0 "get clientset")
| list_fails cs e0 :
    GetClientset w = inr cs ->
    Secrets_List cs namespace (revision_labels releaseName revision)
    = inl e0 ->
    convert_call_fails w namespace releaseName revision fs e0
      (Wrap e0 "list secrets")
| gzip_header_fails cs item0 e0 :
    GetClientset w = inr cs ->
    Secrets_List cs namespace (revision_labels releaseName revision)
    = inr [item0] ->
    gzip_NewReader w (base64_NewDecoder (release_data item0)) = inl e0 ->
    convert_call_fails w namespace releaseName revision fs e0
      (Wrap (Wrap e0 "create gzip reader") "parse release info from secret")
| gzip_read_fails cs item0 gzreader e0 :
    GetClientset w = inr cs ->
    Secrets_List cs namespace (revision_labels releaseName revision)
    = inr [item0] ->
    gzip_NewReader w (base64_NewDecoder (release_data item0))
    = inr gzreader ->
    ReadAll gzreader = inl e0 ->
    convert_call_fails w namespace releaseName revision fs e0
      (Wrap (Wrap e0 "read from gzip reader")
         "parse release info from secret")
| unmarshal_fails cs item0 gzreader releaseData e0 :
    GetClientset w = inr cs ->
    Secrets_List cs namespace (revision_labels releaseName revision)
    = inr [item0] ->
    gzip_NewReader w (base64_NewDecoder (release_data item0))
    = inr gzreader ->
    ReadAll gzreader = inr releaseData ->
    json_Unmarshal w releaseData = inl e0 ->
    convert_call_fails w namespace releaseName revision fs e0
      (Wrap (Wrap e0 "unmarshal release data")
         "parse release info from secret")
| tempdir_fails cs item0 helmRelease e0 fs1 :
    GetClientset w = inr cs ->
    Secrets_List cs namespace (revision_labels releaseName revision)
    = inr [item0] ->
    helmReleaseFromReleaseData w (release_data item0) = Ok helmRelease ->
    ioutil_TempDir w "helm-release-" fs = (Err e0, fs1) ->
    convert_call_fails w namespace releaseName revision fs e0
      (Wrap e0 "create temp dir")
| marshal_metadata_fails release c d fs1 e0 :
    reaches_tree w namespace releaseName revision fs (Some release) d fs1 ->
    helmrelease.Chart release = Some c ->
    ~ In None (chart.Files c) -> ~ In None (chart.Templates c) ->
    yaml_Marshal_metadata w (chart.Metadata_ c) = inl e0 ->
    convert_call_fails w namespace releaseName revision fs e0
      (Wrap (Wrap e0 "marshal chart metadata") "save release to files")
| marshal_values_fails release c d fs1 chartMetadata e0 :
    reaches_tree w namespace releaseName revision fs (Some release) d fs1 ->
    helmrelease.Chart release = Some c ->
    ~ In None (chart.Files c) -> ~ In None (chart.Templates c) ->
    yaml_Marshal_metadata w (chart.Metadata_ c) = inr chartMetadata ->
    yaml_Marshal_values w (chart.Values c) = inl e0 ->
    convert_call_fails w namespace releaseName revision fs e0
      (Wrap (Wrap e0 "marshal chart values") "save release to files")
| mkdir_fails d fs1 written chartFile rest fs2 e0 :
    reaches_writes w namespace releaseName revision fs d fs1
      (written ++ chartFile :: rest) ->
    write_files w d written fs1 = (Ok tt, fs2) ->
    MkdirAll_fault w fs2
      (resolve w (Dir (Join d (save.Name chartFile)))) = Some e0 ->
    convert_call_fails w namespace releaseName revision fs e0
      (Wrap (Wrap e0 ("create dir " +:+ Dir (Join d (save.Name chartFile))))
         "save release to files")
| write_fails d fs1 written chartFile rest fs2 fs3 fault :
    reaches_writes w namespace releaseName revision fs d fs1
      (written ++ chartFile :: rest) ->
    write_files w d written fs1 = (Ok tt, fs2) ->
    os_MkdirAll w (Dir (Join d (save.Name chartFile))) fs2 = (Ok tt, fs3) ->
    WriteFile_fault w fs3 (resolve w (Join d (save.Name chartFile)))
      (save.Data chartFile) = Some fault ->
    convert_call_fails w namespace releaseName revision fs
      (write_error fault)
      (Wrap (Wrap (write_error fault)
               ("write file " +:+ Join d (save.Name chartFile)))
         "save release to files")
| package_fails helmRelease d fs1 fs2 e0 :
    reaches_tree w namespace releaseName revision fs helmRelease d fs1 ->
    saveReleaseToFiles w helmRelease d fs1 = (Ok tt, fs2) ->
    package_Run w fs2 (resolve w d) = inl e0 ->
    convert_call_fails w namespace releaseName revision fs e0
      (Wrap e0 "package client run")
| marshal_config_fails release fs2 name archive e0 :
    reaches_values w namespace releaseName revision fs release fs2 name
      archive ->
    yaml_Marshal_values w (helmrelease.Config release) = inl e0 ->
    convert_call_fails w namespace releaseName revision fs e0
      (Wrap e0 "marshal config data")
| write_values_fails release fs2 name archive configData fault :
    reaches_values w namespace releaseName revision fs release fs2 name
      archive ->
    yaml_Marshal_values w (helmrelease.Config release) = inr configData ->
    WriteFile_fault w
      (fs_write (Join (resolve w ".") name) archive fs2)
      (resolve w (Join "." "values.yaml")) configData = Some fault ->
    convert_call_fails w namespace releaseName revision fs
      (write_error fault) (Wrap (write_error fault) "write values file").




(** ** An example cluster and world *)

Module example.

Definition metadata : chart.Metadata := {|
  chart.MName := "pg";
  chart.Version := "1.0.0";
  chart.Description := "a database";
  chart.APIVersion := "v2";
  chart.AppVersion := "14";
  chart.Type_ := "application";
  chart.Keywords := ["sql"];
|}.

Definition readme : chart.File :=
  {| chart.Name := "README.md"; chart.Data := bytes_of "# pg" |}.

Definition service : chart.File :=
  {| chart.Name := "templates/svc.yaml";
     chart.Data := bytes_of "kind: Service" |}.


Definition a_chart (schema : option bytes) (extra : list (option chart.File))
  : chart.Chart := {|
  chart.Metadata_ := Some metadata;
  chart.Templates := [Some service];
  chart.Values := ∅;
  chart.Schema := schema;
  chart.Files := Some readme :: extra;
|}.

Definition a_release (c : chart.Chart) (config : gmap string Value)
  : helmrelease.Release := {|
  helmrelease.Name := "pg";
  helmrelease.Chart := Some c;
  helmrelease.Config := config;
  helmrelease.Version := 1;
  helmrelease.Namespace := "default";
|}.

Definition overrides : gmap string Value := {["replicas" := VNumber 2]}.

(** Stand-ins for the serialized record: [record_json] is the JSON text
    and [record_gz] its compressed form, which the secret stores in
    base64. *)
Definition record_json : bytes := bytes_of "{release pg}".
Definition record_gz : bytes := Byte.x1f :: Byte.x8b :: record_json.

Definition a_secret (version : string) : corev1.Secret := {|
  corev1.Labels :=
    <["owner" := "helm"]> (<["name" := "pg"]> {["version" := version]});
  corev1.Data := {["release" := base64_encode record_gz]};
|}.

(** A secret whose record is the JSON text [null]. *)
Definition null_secret : corev1.Secret := {|
  corev1.Labels :=
    <["owner" := "helm"]> (<["name" := "pg"]> {["version" := "1"]});
  corev1.Data :=
    {["release" := base64_encode (Byte.x1f :: Byte.x8b :: bytes_of "null")]};
|}.

(** A secret of the release without version label. *)
Definition unlabelled : corev1.Secret := {|
  corev1.Labels := <["owner" := "helm"]> {["name" := "pg"]};
  corev1.Data := ∅;
|}.

Definition a_clientset (secrets : list corev1.Secret) : Clientset := {|
  stored := fun namespace =>
    if String.eqb namespace "default" then secrets else [];
  List_fault := fun _ _ => None;
|}.

(** A world in which the codecs are stand-ins: the gzip reader takes the
    two magic bytes and hands the rest through, the JSON decoder knows the
    one record. *)
Definition a_world (cs : error + Clientset) (release : helmrelease.Release)
    (write_fault : string -> option WriteFault) : World := {|
  GetClientset := cs;
  gzip_NewReader := fun r =>
    match r with
    | (Byte.x1f :: Byte.x8b :: payload, e) => inr (payload, e)
    | _ => inl (Fundamental "gzip: invalid header")
    end;
  json_Unmarshal := fun b =>
    if bool_decide (b = record_json) then inr (Some release)
    else if bool_decide (b = bytes_of "null") then inr None
    else inl (Fundamental "invalid character");
  yaml_Marshal_metadata := fun _ => inr (bytes_of "name: pg");
  yaml_Marshal_values := fun m =>
    inr (if Nat.eqb (size m) 0 then bytes_of "{}"
         else bytes_of "replicas: 2");
  cwd := "/home/u";
  tempdir_name := fun prefix _ => "/tmp/" +:+ prefix +:+ "042";
  TempDir_fault := fun _ => None;
  MkdirAll_fault := fun _ _ => None;
  WriteFile_fault := fun _ p _ => write_fault p;
  package_Run := fun _ _ => inr ("pg-1.0.0.tgz", bytes_of "archive");
|}.

Definition no_fault : string -> option WriteFault := fun _ => None.

(** The README of the chart cannot be written. *)
Definition readme_fault : string -> option WriteFault := fun p =>
  if String.eqb p "/tmp/r/README.md"
  then Some {| write_error := Fundamental "permission denied";
               write_left := None |}
  else None.

(** The disk is full when the values file is written. *)
Definition values_fault : string -> option WriteFault := fun p =>
  if String.eqb p "/home/u/values.yaml"
  then Some {| write_error := Fundamental "no space left on device";
               write_left := Some [] |}
  else None.

Definition fs0 : FS :=
  {| files := ∅; dirs := {["/"; "/tmp"; "/home"; "/home/u"]} |}.

(** One revision stored, installed without / with override values. *)
Definition plain_world (schema : option bytes) : World :=
  a_world (inr (a_clientset [a_secret "1"]))
    (a_release (a_chart schema []) ∅) no_fault.

Definition overriding_world (write_fault : string -> option WriteFault)
  : World :=
  a_world (inr (a_clientset [a_secret "1"]))
    (a_release (a_chart None []) overrides) write_fault.


Definition offline_world : World :=
  a_world (inl (Fundamental "no kubeconfig"))
    (a_release (a_chart None []) ∅) no_fault.

Definition store_world (secrets : list corev1.Secret) : World :=
  a_world (inr (a_clientset secrets))
    (a_release (a_chart None []) ∅) no_fault.

Definition invoke (revision : string) : Invocation :=
  {| args := ["pg"]; flag_namespace := "default";
     flag_revision := revision |}.

End example.

(** * Proofs *)

(** ** base64: decoding inverts encoding *)

Lemma u8_range b : 0 <= u8 b < 256.
Proof.
  unfold u8. pose proof (Byte.to_N_bounded b). lia.
Qed.

Lemma land_255 z : Z.land z 255 = z mod 256.
Proof. change 255 with (Z.ones 8). rewrite Z.land_ones by lia. reflexivity. Qed.

Lemma land_63 z : Z.land z 63 = z mod 64.
Proof. change 63 with (Z.ones 6). rewrite Z.land_ones by lia. reflexivity. Qed.

Lemma byte_of_Z_u8 z b : z mod 256 = u8 b -> byte_of_Z z = b.
Proof.
  intros H. unfold byte_of_Z. rewrite land_255, H. unfold u8.
  rewrite N2Z.id, Byte.of_to_N. reflexivity.
Qed.

Lemma lor_add_disjoint n x b :
  0 <= n -> x mod 2 ^ n = 0 -> 0 <= b < 2 ^ n -> Z.lor x b = x + b.
Proof.
  intros Hn Hx Hb.
  rewrite <- Z.lxor_lor, <- Z.add_nocarry_lxor; try reflexivity.
  all: apply Z.bits_inj'; intros i Hi; rewrite Z.land_spec, Z.bits_0.
  all: destruct (Z.lt_ge_cases i n) as [Hlt | Hge].
  all: try (rewrite <- (Z.mod_pow2_bits_low x n i), Hx, Z.bits_0 by lia; reflexivity).
  all: destruct (Z.eq_dec b 0) as [-> | Hnz]; [rewrite Z.bits_0; apply andb_false_r|].
  all: rewrite (Z.bits_above_log2 b i), andb_false_r; try lia; try reflexivity.
  all: apply Z.lt_le_trans with n; [apply Z.log2_lt_pow2; lia | lia].
Qed.

Lemma lor_add_pow2 n m x b :
  0 <= n -> m = 2 ^ n -> x mod m = 0 -> 0 <= b < m -> Z.lor x b = x + b.
Proof. intros Hn ->. apply lor_add_disjoint. exact Hn. Qed.

Lemma pack3 u0 u1 u2 :
  0 <= u1 < 256 -> 0 <= u2 < 256 ->
  Z.lor (Z.lor (Z.shiftl u0 16) (Z.shiftl u1 8)) u2
  = u0 * 65536 + u1 * 256 + u2.
Proof.
  intros H1 H2. rewrite !Z.shiftl_mul_pow2 by lia.
  change (2 ^ 16) with 65536. change (2 ^ 8) with 256.
  rewrite (lor_add_pow2 16 65536 (u0 * 65536) (u1 * 256)); [| lia | reflexivity | apply Z_mod_mult | lia].
  rewrite (lor_add_pow2 8 256); [reflexivity | lia | reflexivity | | lia].
  replace (u0 * 65536 + u1 * 256) with ((u0 * 256 + u1) * 256) by lia.
  apply Z_mod_mult.
Qed.

Lemma quantum_val_add d0 d1 d2 d3 :
  0 <= d1 < 64 -> 0 <= d2 < 64 -> 0 <= d3 < 64 ->
  quantum_val d0 d1 d2 d3 = d0 * 262144 + d1 * 4096 + d2 * 64 + d3.
Proof.
  intros H1 H2 H3. unfold quantum_val. rewrite !Z.shiftl_mul_pow2 by lia.
  change (2 ^ 18) with 262144. change (2 ^ 12) with 4096.
  change (2 ^ 6) with 64.
  rewrite (lor_add_pow2 18 262144 (d0 * 262144) (d1 * 4096));
    [| lia | reflexivity | apply Z_mod_mult | lia].
  rewrite (lor_add_pow2 12 4096 _ (d2 * 64)); [| lia | reflexivity | | lia].
  2:{ replace (d0 * 262144 + d1 * 4096) with ((d0 * 64 + d1) * 4096) by lia.
      apply Z_mod_mult. }
  rewrite (lor_add_pow2 6 64); [reflexivity | lia | reflexivity | | lia].
  replace (d0 * 262144 + d1 * 4096 + d2 * 64)
    with ((d0 * 4096 + d1 * 64 + d2) * 64) by lia.
  apply Z_mod_mult.
Qed.

Lemma sextet_range val k : 0 <= Z.land (Z.shiftr val k) 63 < 64.
Proof. rewrite land_63. apply Z.mod_pos_bound. lia. Qed.

Lemma sextet0_range val : 0 <= Z.land val 63 < 64.
Proof. rewrite land_63. apply Z.mod_pos_bound. lia. Qed.

Lemma requantum val :
  0 <= val < 16777216 ->
  quantum_val (Z.land (Z.shiftr val 18) 63) (Z.land (Z.shiftr val 12) 63)
    (Z.land (Z.shiftr val 6) 63) (Z.land val 63) = val.
Proof.
  intros Hv.
  rewrite quantum_val_add by (apply sextet_range || apply sextet0_range).
  rewrite !land_63, !Z.shiftr_div_pow2 by lia.
  change (2 ^ 18) with 262144. change (2 ^ 12) with 4096.
  change (2 ^ 6) with 64.
  Z.div_mod_to_equations. lia.
Qed.

Lemma decode_encode_char i :
  0 <= i < 64 -> decode_char (encode_char i) = Some i.
Proof.
  intros Hi. rewrite <- (Z2Nat.id i) by lia.
  assert (Hn : (Z.to_nat i < 64)%nat) by lia.
  generalize dependent (Z.to_nat i). clear. intros n Hn.
  do 64 (destruct n as [| n]; [reflexivity |]). lia.
Qed.

Lemma encode_char_not_newline i :
  0 <= i < 64 -> is_newline (encode_char i) = false.
Proof.
  intros Hi. rewrite <- (Z2Nat.id i) by lia.
  assert (Hn : (Z.to_nat i < 64)%nat) by lia.
  generalize dependent (Z.to_nat i). clear. intros n Hn.
  do 64 (destruct n as [| n]; [reflexivity |]). lia.
Qed.

Lemma list_ind3 {A} (P : list A -> Prop) :
  P [] -> (forall a, P [a]) -> (forall a b, P [a; b]) ->
  (forall a b c l, P l -> P (a :: b :: c :: l)) ->
  forall l, P l.
Proof.
  intros H0 H1 H2 H3 l.
  assert (H : P l /\ (forall a, P (a :: l)) /\ (forall a b, P (a :: b :: l))).
  { induction l as [| x l (IH0 & IH1 & IH2)].
    - auto.
    - repeat split; auto. }
  apply H.
Qed.

Lemma val3_range b0 b1 b2 :
  0 <= u8 b0 * 65536 + u8 b1 * 256 + u8 b2 < 16777216.
Proof.
  pose proof (u8_range b0). pose proof (u8_range b1).
  pose proof (u8_range b2). lia.
Qed.

Lemma encode3_val b0 b1 b2 :
  Z.lor (Z.lor (Z.shiftl (u8 b0) 16) (Z.shiftl (u8 b1) 8)) (u8 b2)
  = u8 b0 * 65536 + u8 b1 * 256 + u8 b2.
Proof. apply pack3; apply u8_range. Qed.

Lemma encode2_val b0 b1 :
  Z.lor (Z.shiftl (u8 b0) 16) (Z.shiftl (u8 b1) 8)
  = u8 b0 * 65536 + u8 b1 * 256.
Proof.
  pose proof (pack3 (u8 b0) (u8 b1) 0 (u8_range b1)) as H.
  rewrite Z.lor_0_r, Z.add_0_r in H. apply H. lia.
Qed.

Lemma encode1_val b0 : Z.shiftl (u8 b0) 16 = u8 b0 * 65536.
Proof. rewrite Z.shiftl_mul_pow2 by lia. reflexivity. Qed.

Ltac sextets :=
  rewrite ?land_63, ?Z.shiftr_div_pow2 by lia;
  change (2 ^ 18) with 262144; change (2 ^ 12) with 4096;
  change (2 ^ 16) with 65536; change (2 ^ 8) with 256;
  change (2 ^ 6) with 64.

Lemma base64_encode_3 a b c l :
  base64_encode (a :: b :: c :: l) =
  encode_char (Z.land (Z.shiftr (Z.lor (Z.lor (Z.shiftl (u8 a) 16) (Z.shiftl (u8 b) 8)) (u8 c)) 18) 63)
  :: encode_char (Z.land (Z.shiftr (Z.lor (Z.lor (Z.shiftl (u8 a) 16) (Z.shiftl (u8 b) 8)) (u8 c)) 12) 63)
  :: encode_char (Z.land (Z.shiftr (Z.lor (Z.lor (Z.shiftl (u8 a) 16) (Z.shiftl (u8 b) 8)) (u8 c)) 6) 63)
  :: encode_char (Z.land (Z.lor (Z.lor (Z.shiftl (u8 a) 16) (Z.shiftl (u8 b) 8)) (u8 c)) 63)
  :: base64_encode l.
Proof. reflexivity. Qed.

Lemma base64_encode_2 a b :
  base64_encode [a; b] =
  [encode_char (Z.land (Z.shiftr (Z.lor (Z.shiftl (u8 a) 16) (Z.shiftl (u8 b) 8)) 18) 63);
   encode_char (Z.land (Z.shiftr (Z.lor (Z.shiftl (u8 a) 16) (Z.shiftl (u8 b) 8)) 12) 63);
   encode_char (Z.land (Z.shiftr (Z.lor (Z.shiftl (u8 a) 16) (Z.shiftl (u8 b) 8)) 6) 63);
   padChar].
Proof. reflexivity. Qed.

Lemma base64_encode_1 a :
  base64_encode [a] =
  [encode_char (Z.land (Z.shiftr (Z.shiftl (u8 a) 16) 18) 63);
   encode_char (Z.land (Z.shiftr (Z.shiftl (u8 a) 16) 12) 63);
   padChar; padChar].
Proof. reflexivity. Qed.

Lemma filter_keep c l :
  is_newline c = false ->
  List.filter (fun c => negb (is_newline c)) (c :: l)
  = c :: List.filter (fun c => negb (is_newline c)) l.
Proof. intros H. cbn [List.filter]. rewrite H. reflexivity. Qed.

Lemma pad_not_newline : is_newline padChar = false.
Proof. reflexivity. Qed.

Lemma filter_encode (src : bytes) :
  List.filter (fun c => negb (is_newline c)) (base64_encode src)
  = base64_encode src.
Proof.
  induction src as [| a | a b | a b c l IH] using list_ind3.
  - reflexivity.
  - rewrite base64_encode_1.
    rewrite !filter_keep;
      [reflexivity | try apply pad_not_newline;
                     apply encode_char_not_newline;
                     (apply sextet_range || apply sextet0_range) ..].
  - rewrite base64_encode_2.
    rewrite !filter_keep;
      [reflexivity | try apply pad_not_newline;
                     apply encode_char_not_newline;
                     (apply sextet_range || apply sextet0_range) ..].
  - rewrite base64_encode_3.
    rewrite !filter_keep;
      [rewrite IH; reflexivity
      | apply encode_char_not_newline;
        (apply sextet_range || apply sextet0_range) ..].
Qed.

Lemma decode_quanta_full c0 c1 c2 c3 rest d0 d1 d2 d3 :
  decode_char c0 = Some d0 -> decode_char c1 = Some d1 ->
  decode_char c2 = Some d2 -> decode_char c3 = Some d3 ->
  decode_quanta (c0 :: c1 :: c2 :: c3 :: rest) =
  (byte_of_Z (Z.shiftr (quantum_val d0 d1 d2 d3) 16)
     :: byte_of_Z (Z.shiftr (quantum_val d0 d1 d2 d3) 8)
     :: byte_of_Z (quantum_val d0 d1 d2 d3) :: fst (decode_quanta rest),
   snd (decode_quanta rest)).
Proof.
  intros H0 H1 H2 H3. cbn [decode_quanta]. rewrite H0, H1, H2, H3.
  destruct (decode_quanta rest). reflexivity.
Qed.

Lemma decode_quanta_pad1 c0 c1 c2 d0 d1 d2 :
  decode_char c0 = Some d0 -> decode_char c1 = Some d1 ->
  decode_char c2 = Some d2 ->
  decode_quanta [c0; c1; c2; padChar] =
  ([byte_of_Z (Z.shiftr (quantum_val d0 d1 d2 0) 16);
    byte_of_Z (Z.shiftr (quantum_val d0 d1 d2 0) 8)], None).
Proof.
  intros H0 H1 H2. cbn [decode_quanta]. rewrite H0, H1, H2. reflexivity.
Qed.

Lemma decode_quanta_pad2 c0 c1 d0 d1 :
  decode_char c0 = Some d0 -> decode_char c1 = Some d1 ->
  decode_quanta [c0; c1; padChar; padChar] =
  ([byte_of_Z (Z.shiftr (quantum_val d0 d1 0 0) 16)], None).
Proof.
  intros H0 H1. cbn [decode_quanta]. rewrite H0, H1. reflexivity.
Qed.

Lemma decode_encode (src : bytes) :
  decode_quanta (base64_encode src) = (src, None).
Proof.
  induction src as [| a | a b | a b c l IH] using list_ind3.
  - reflexivity.
  - rewrite base64_encode_1, encode1_val.
    pose proof (u8_range a) as Ha.
    erewrite decode_quanta_pad2
      by (apply decode_encode_char; apply sextet_range).
    rewrite quantum_val_add by (try apply sextet_range; lia).
    f_equal. f_equal. apply byte_of_Z_u8. sextets.
    Z.div_mod_to_equations. lia.
  - rewrite base64_encode_2, encode2_val.
    pose proof (u8_range a) as Ha. pose proof (u8_range b) as Hb.
    erewrite decode_quanta_pad1
      by (apply decode_encode_char; apply sextet_range).
    rewrite quantum_val_add by (try apply sextet_range; lia).
    f_equal. f_equal; [| f_equal]; apply byte_of_Z_u8; sextets;
      Z.div_mod_to_equations; lia.
  - rewrite base64_encode_3, encode3_val.
    pose proof (val3_range a b c) as Hv.
    pose proof (u8_range a) as Ha. pose proof (u8_range b) as Hb.
    pose proof (u8_range c) as Hc.
    erewrite decode_quanta_full
      by (apply decode_encode_char;
          (apply sextet_range || apply sextet0_range)).
    rewrite requantum by exact Hv. rewrite IH. cbn [fst snd].
    f_equal. f_equal; [| f_equal; [| f_equal]]; apply byte_of_Z_u8; sextets;
      Z.div_mod_to_equations; lia.
Qed.

Lemma base64_roundtrip (src : bytes) :
  base64_NewDecoder (base64_encode src) = (src, None).
Proof. unfold base64_NewDecoder. rewrite filter_encode. apply decode_encode. Qed.

(** ** The monad of calls *)

Lemma bind_run {A B} (m : M A) (k : A -> M B) fs :
  bind m k fs =
  match m fs with
  | (Ok a, fs') => k a fs'
  | (Err e, fs') => (Err e, fs')
  | (Panic, fs') => (Panic, fs')
  end.
Proof. reflexivity. Qed.

Lemma bind_ok_inv {A B} (m : M A) (k : A -> M B) fs b fs' :
  bind m k fs = (Ok b, fs') ->
  exists a fs1, m fs = (Ok a, fs1) /\ k a fs1 = (Ok b, fs').
Proof.
  unfold bind. destruct (m fs) as [[a | e |] fs1]; intros H;
    [eauto | discriminate | discriminate].
Qed.

Lemma bind_err_inv {A B} (m : M A) (k : A -> M B) fs e fs' :
  bind m k fs = (Err e, fs') ->
  m fs = (Err e, fs')
  \/ exists a fs1, m fs = (Ok a, fs1) /\ k a fs1 = (Err e, fs').
Proof.
  unfold bind. destruct (m fs) as [[a | e0 |] fs1]; intros H;
    [right; eauto | left; inversion H; reflexivity | discriminate].
Qed.

Lemma wrap_ok_inv {A} msg (m : M A) fs a fs' :
  wrap msg m fs = (Ok a, fs') -> m fs = (Ok a, fs').
Proof.
  unfold wrap. destruct (m fs) as [[a0 | e |] fs1]; intros H;
    [exact H | discriminate | discriminate].
Qed.

Lemma wrap_err_inv {A} msg (m : M A) fs e fs' :
  wrap msg m fs = (Err e, fs') ->
  exists c, e = Wrap c msg /\ m fs = (Err c, fs').
Proof.
  unfold wrap. destruct (m fs) as [[a0 | e0 |] fs1]; intros H;
    [discriminate | | discriminate].
  inversion H; subst. eauto.
Qed.

Lemma wrap_state {A} msg (m : M A) fs : snd (wrap msg m fs) = snd (m fs).
Proof. unfold wrap. destruct (m fs) as [[a | e |] fs1]; reflexivity. Qed.

(** ** [strconv.Atoi] and the scan for the latest revision *)

Lemma Atoi_parse s :
  Atoi s = match parse_int s with
           | Some v => inr v
           | None => inl (NumError "Atoi" s (atoi_error s))
           end.
Proof. reflexivity. Qed.

Lemma latest_step_parse latest s :
  latest_step latest s =
  match parse_int (version_label s) with
  | Some v => Z.max latest v
  | None => latest
  end.
Proof.
  unfold latest_step. rewrite Atoi_parse.
  destruct (parse_int (version_label s)) as [v |]; [| reflexivity].
  destruct (Z.gtb_spec v latest); lia.
Qed.

Lemma label_revisions_cons s items :
  label_revisions (s :: items) =
  match parse_int (version_label s) with
  | Some v => v :: label_revisions items
  | None => label_revisions items
  end.
Proof. reflexivity. Qed.

Lemma scan_spec items : forall acc,
  let r := fold_left latest_step items acc in
  acc <= r
  /\ (forall v, In v (label_revisions items) -> v <= r)
  /\ (r = acc \/ In r (label_revisions items)).
Proof.
  induction items as [| s items IH]; intros acc; cbn zeta.
  - simpl. repeat split; [lia | contradiction | auto].
  - cbn [fold_left]. rewrite label_revisions_cons, latest_step_parse.
    destruct (parse_int (version_label s)) as [v |].
    + destruct (IH (Z.max acc v)) as (H1 & H2 & H3).
      repeat split.
      * lia.
      * intros x [<- | Hx]; [lia | auto].
      * destruct H3 as [H3 | H3]; [| right; right; exact H3].
        destruct (Z.max_spec acc v) as [[_ Hm] | [_ Hm]].
        -- right; left. rewrite H3. symmetry; exact Hm.
        -- left. rewrite H3. exact Hm.
    + apply IH.
Qed.

Lemma scan_skips items : forall acc,
  fold_left latest_step (List.filter has_revision items) acc
  = fold_left latest_step items acc.
Proof.
  induction items as [| s items IH]; intros acc; [reflexivity |].
  cbn [List.filter fold_left]. unfold has_revision at 1.
  rewrite (latest_step_parse acc s).
  destruct (parse_int (version_label s)) as [v |] eqn:Hp.
  - rewrite bool_decide_eq_true_2 by eauto. cbn [fold_left].
    rewrite latest_step_parse, Hp. apply IH.
  - rewrite bool_decide_eq_false_2 by (intros [x Hx]; discriminate).
    apply IH.
Qed.

Lemma find_latest_run w cs namespace releaseName :
  GetClientset w = inr cs ->
  List_fault cs namespace (release_labels releaseName) = None ->
  FindLatestReleaseVersion w namespace releaseName =
  Ok (fold_left latest_step
        (List.filter (selects (release_labels releaseName))
           (stored cs namespace)) 0).
Proof.
  intros Hc Hl. unfold FindLatestReleaseVersion, Secrets_List, SelectorFromSet.
  rewrite Hc, Hl. reflexivity.
Qed.

(** ** Paths *)

Lemma path_elements_cons c s :
  path_elements (String c s) =
  if Ascii.eqb c "/" then "" :: path_elements s
  else match path_elements s with
       | h :: t => String c h :: t
       | [] => [String c ""]
       end.
Proof. reflexivity. Qed.

Lemma path_elements_nonempty s : path_elements s <> [].
Proof.
  destruct s as [| c s]; [discriminate |]. rewrite path_elements_cons.
  destruct (Ascii.eqb c "/"); [discriminate |].
  destruct (path_elements s); discriminate.
Qed.

Lemma path_elements_app a b :
  path_elements (a +:+ "/" +:+ b) = (path_elements a ++ path_elements b)%list.
Proof.
  induction a as [| c a IH].
  - reflexivity.
  - change (String c a +:+ "/" +:+ b) with (String c (a +:+ "/" +:+ b)).
    rewrite !path_elements_cons, IH.
    destruct (Ascii.eqb c "/"); [reflexivity |].
    pose proof (path_elements_nonempty a) as Hne.
    destruct (path_elements a) as [| h t]; [contradiction | reflexivity].
Qed.

Lemma path_elements_root s :
  path_elements ("/" +:+ s) = "" :: path_elements s.
Proof. reflexivity. Qed.

Lemma ends_with_inj n1 n2 p : ends_with n1 p -> ends_with n2 p -> n1 = n2.
Proof.
  intros [l1 H1] [l2 H2]. rewrite H1 in H2.
  apply app_inj_tail in H2 as [_ H]. exact H.
Qed.

Lemma append_cons x (a b : string) : String x a +:+ b = String x (a +:+ b).
Proof. reflexivity. Qed.

Lemma append_assoc (a b c : string) : (a +:+ b) +:+ c = a +:+ (b +:+ c).
Proof.
  induction a as [| x a IH]; [reflexivity |].
  rewrite !append_cons, IH. reflexivity.
Qed.

Lemma concat_snoc xs n :
  String.concat "/" (xs ++ [n]) =
  match xs with
  | [] => n
  | _ => String.concat "/" xs +:+ "/" +:+ n
  end.
Proof.
  induction xs as [| x xs IH]; [reflexivity |].
  destruct xs as [| y xs]; [reflexivity |].
  change (String.concat "/" ((x :: y :: xs) ++ [n]))
    with (x +:+ "/" +:+ String.concat "/" ((y :: xs) ++ [n])).
  rewrite IH.
  change (String.concat "/" (x :: y :: xs))
    with (x +:+ "/" +:+ String.concat "/" (y :: xs)).
  rewrite !append_assoc. reflexivity.
Qed.

Lemma clean_step_plain rooted out n :
  plain_name n -> clean_step rooted out n = n :: out.
Proof.
  intros (H1 & H2 & H3 & _). unfold clean_step.
  rewrite (proj2 (String.eqb_neq n "")) by exact H1.
  rewrite (proj2 (String.eqb_neq n ".")) by exact H2.
  rewrite (proj2 (String.eqb_neq n "..")) by exact H3.
  reflexivity.
Qed.

Lemma ends_with_concat n xs :
  plain_name n -> ends_with n (String.concat "/" (xs ++ [n])).
Proof.
  intros Hn. rewrite concat_snoc. destruct xs as [| x xs].
  - exists []. apply Hn.
  - exists (path_elements (String.concat "/" (x :: xs))).
    rewrite path_elements_app. f_equal. apply Hn.
Qed.

Lemma ends_with_Clean n p :
  plain_name n -> ends_with n p -> ends_with n (Clean p).
Proof.
  intros Hn [l Hl]. unfold Clean. rewrite Hl, fold_left_app.
  cbn [fold_left]. rewrite clean_step_plain by exact Hn.
  set (st := fold_left (clean_step (is_rooted p)) l []).
  cbn [rev]. destruct (ends_with_concat n (rev st) Hn) as [l' Hl'].
  destruct (rev st ++ [n])%list as [| x xs] eqn:Hout.
  { destruct (rev st); discriminate. }
  destruct (is_rooted p).
  - exists ("" :: l'). rewrite path_elements_root, Hl'. reflexivity.
  - exists l'. exact Hl'.
Qed.

Lemma ends_with_app n a p :
  ends_with n p -> ends_with n (a +:+ "/" +:+ p).
Proof.
  intros [l Hl]. exists (path_elements a ++ l)%list.
  rewrite path_elements_app, Hl, app_assoc. reflexivity.
Qed.

Lemma ends_with_plain n : plain_name n -> ends_with n n.
Proof. intros Hn. exists []. apply Hn. Qed.

Lemma ends_with_nonempty n p : ends_with n p -> plain_name n -> p <> "".
Proof.
  intros [l Hl] (H1 & _) ->. cbn in Hl.
  destruct l as [| x [| y l]]; inversion Hl; subst; try contradiction.
Qed.

Lemma ends_with_Join n a p :
  plain_name n -> ends_with n p -> ends_with n (Join a p).
Proof.
  intros Hn Hp. unfold Join.
  destruct (negb (String.eqb a "")).
  - apply ends_with_Clean; [exact Hn |]. apply ends_with_app. exact Hp.
  - rewrite (proj2 (String.eqb_neq p "")) by (eapply ends_with_nonempty; eauto).
    cbn [negb]. apply ends_with_Clean; assumption.
Qed.

Lemma ends_with_resolve w n p :
  plain_name n -> ends_with n p -> ends_with n (resolve w p).
Proof.
  intros Hn Hp. unfold resolve. destruct (is_rooted p).
  - apply ends_with_Clean; assumption.
  - apply ends_with_Join; assumption.
Qed.

Lemma ends_with_tree_path w d n :
  plain_name n -> ends_with n (tree_path w d n).
Proof.
  intros Hn. unfold tree_path. apply ends_with_resolve; [exact Hn |].
  apply ends_with_Join; [exact Hn |]. apply ends_with_plain. exact Hn.
Qed.

Lemma tree_path_plain_inj w d n1 n2 :
  plain_name n1 -> plain_name n2 ->
  tree_path w d n1 = tree_path w d n2 -> n1 = n2.
Proof.
  intros H1 H2 Heq. pose proof (ends_with_tree_path w d n1 H1) as E1.
  pose proof (ends_with_tree_path w d n2 H2) as E2. rewrite Heq in E1.
  exact (ends_with_inj _ _ _ E1 E2).
Qed.

Lemma plain_Chart_yaml : plain_name "Chart.yaml".
Proof. repeat split; discriminate. Qed.
Lemma plain_values_yaml : plain_name "values.yaml".
Proof. repeat split; discriminate. Qed.
Lemma plain_values_schema_json : plain_name "values.schema.json".
Proof. repeat split; discriminate. Qed.

Lemma wrap_run_inv {A} msg (m : M A) fs r fs' :
  wrap msg m fs = (r, fs') -> exists r0, m fs = (r0, fs').
Proof.
  unfold wrap. destruct (m fs) as [[a | e |] fs1]; intros H; inversion H;
    eauto.
Qed.

(** ** Writing the tree *)

Lemma MkdirAll_files w path fs r fs' :
  os_MkdirAll w path fs = (r, fs') -> files fs' = files fs.
Proof.
  unfold os_MkdirAll. destruct (MkdirAll_fault w fs (resolve w path));
    intros H; inversion H; reflexivity.
Qed.

Lemma WriteFile_ok w filename data fs fs' :
  ioutil_WriteFile w filename data fs = (Ok tt, fs') ->
  files fs' = <[resolve w filename := data]> (files fs).
Proof.
  unfold ioutil_WriteFile.
  destruct (WriteFile_fault w fs (resolve w filename) data);
    intros H; inversion H; reflexivity.
Qed.

Lemma WriteFile_other w filename data fs r fs' p :
  ioutil_WriteFile w filename data fs = (r, fs') ->
  p <> resolve w filename -> files fs' !! p = files fs !! p.
Proof.
  unfold ioutil_WriteFile. intros H Hp.
  destruct (WriteFile_fault w fs (resolve w filename) data) as [f |].
  - destruct (write_left f); inversion H; subst; [| reflexivity].
    cbn. apply lookup_insert_ne. congruence.
  - inversion H; subst. cbn. apply lookup_insert_ne. congruence.
Qed.

(** The files after a successful run of the last loop: every entry put at
    its path, in order. *)
Lemma write_files_ok w d l : forall fs fs',
  write_files w d l fs = (Ok tt, fs') ->
  files fs' = fold_left (put_entry w d) l (files fs).
Proof.
  induction l as [| f l IH]; intros fs fs' H.
  - inversion H. reflexivity.
  - cbn [write_files] in H.
    apply bind_ok_inv in H as ([] & fs1 & H1 & H).
    apply bind_ok_inv in H as ([] & fs2 & H2 & H).
    apply wrap_ok_inv in H1. apply MkdirAll_files in H1.
    apply wrap_ok_inv in H2. apply WriteFile_ok in H2.
    rewrite (IH _ _ H). cbn [fold_left]. unfold put_entry at 2, tree_path.
    rewrite H2, H1. reflexivity.
Qed.

(** Whatever its outcome, the loop touches no path but those of its
    entries. *)
Lemma write_files_other w d l p : forall fs r fs',
  write_files w d l fs = (r, fs') ->
  (forall f, In f l -> tree_path w d (save.Name f) <> p) ->
  files fs' !! p = files fs !! p.
Proof.
  induction l as [| f l IH]; intros fs r fs' H Hp.
  - inversion H. reflexivity.
  - cbn [write_files] in H. rewrite bind_run in H.
    destruct (wrap _ (os_MkdirAll w _) fs) as [r1 fs1] eqn:H1.
    assert (files fs1 = files fs) as E1.
    { apply wrap_run_inv in H1 as [r0 H0]. eapply MkdirAll_files. exact H0. }
    destruct r1 as [[] | e |]; try (inversion H; subst; rewrite E1; reflexivity).
    rewrite bind_run in H.
    destruct (wrap _ (ioutil_WriteFile w _ _) fs1) as [r2 fs2] eqn:H2.
    assert (files fs2 !! p = files fs1 !! p) as E2.
    { apply wrap_run_inv in H2 as [r0 H0].
      eapply WriteFile_other; [exact H0 |].
      intros ->. apply (Hp f); [left; reflexivity | reflexivity]. }
    destruct r2 as [[] | e |];
      try (inversion H; subst; rewrite E2, E1; reflexivity).
    rewrite (IH _ _ _ H), E2, E1; [reflexivity |].
    intros g Hg. apply Hp. right; exact Hg.
Qed.

Lemma fold_put_other w d l p : forall m,
  (forall f, In f l -> tree_path w d (save.Name f) <> p) ->
  fold_left (put_entry w d) l m !! p = m !! p.
Proof.
  induction l as [| f l IH]; intros m H; [reflexivity |].
  cbn [fold_left]. rewrite IH by (intros g Hg; apply H; right; exact Hg).
  unfold put_entry. apply lookup_insert_ne. apply H. left; reflexivity.
Qed.

(** The last entry written at a path decides what the path holds. *)
Lemma fold_put_last w d l1 f l2 m :
  (forall g, In g l2 ->
     tree_path w d (save.Name g) <> tree_path w d (save.Name f)) ->
  fold_left (put_entry w d) (l1 ++ f :: l2) m
    !! tree_path w d (save.Name f) = Some (save.Data f).
Proof.
  intros H. rewrite fold_left_app. cbn [fold_left].
  rewrite fold_put_other by exact H. unfold put_entry.
  apply lookup_insert_eq.
Qed.

(** ** The list of files to write *)

Lemma collect_spec l : forall acc r,
  collect l acc = Some r ->
  l = map Some (present l)
  /\ r = (acc ++ map as_chartFile (present l))%list.
Proof.
  induction l as [| [f |] l IH]; intros acc r H.
  - inversion H. split; [reflexivity | symmetry; apply app_nil_r].
  - cbn [collect] in H. apply IH in H as [H1 H2]. split.
    + change (present (Some f :: l)) with (f :: present l).
      cbn [map]. rewrite <- H1. reflexivity.
    + change (present (Some f :: l)) with (f :: present l).
      rewrite H2, <- app_assoc. reflexivity.
  - discriminate.
Qed.

Lemma chart_files_ok w c fs l fs' :
  chart_files w c fs = (Ok l, fs') ->
  fs' = fs
  /\ chart.Files c = map Some (present (chart.Files c))
  /\ chart.Templates c = map Some (present (chart.Templates c))
  /\ exists chartMetadata chartValues chartValuesSchema,
       yaml_Marshal_metadata w (chart.Metadata_ c) = inr chartMetadata
       /\ yaml_Marshal_values w (chart.Values c) = inr chartValues
       /\ json_Marshal_bytes (chart.Schema c) = inr chartValuesSchema
       /\ l = (map as_chartFile
                 (present (chart.Files c) ++ present (chart.Templates c))
               ++ [{| save.Name := "Chart.yaml";
                      save.Data := chartMetadata |};
                   {| save.Name := "values.yaml";
                      save.Data := chartValues |};
                   {| save.Name := "values.schema.json";
                      save.Data := chartValuesSchema |}])%list.
Proof.
  unfold chart_files.
  destruct (collect (chart.Files c) []) as [files1 |] eqn:H1;
    [| intros H; discriminate H].
  destruct (collect (chart.Templates c) files1) as [files2 |] eqn:H2;
    [| intros H; discriminate H].
  apply collect_spec in H1 as [F1 ->]. apply collect_spec in H2 as [F2 ->].
  intros H.
  apply bind_ok_inv in H as (ym & fs1 & Hm & H).
  apply bind_ok_inv in H as (yv & fs2 & Hv & H).
  apply bind_ok_inv in H as (js & fs3 & Hs & H).
  apply wrap_ok_inv in Hm, Hv, Hs. unfold lift in Hm, Hv, Hs.
  destruct (yaml_Marshal_metadata w (chart.Metadata_ c)) as [| ym'];
    inversion Hm; subst.
  destruct (yaml_Marshal_values w (chart.Values c)) as [| yv'];
    inversion Hv; subst.
  destruct (json_Marshal_bytes (chart.Schema c)) as [| js'];
    inversion Hs; subst.
  inversion H; subst. repeat split; try assumption.
  exists ym, yv, js. repeat split.
  cbn [app]. rewrite map_app, <- !app_assoc. reflexivity.
Qed.

Lemma save_ok w release c d fs fs' :
  helmrelease.Chart release = Some c ->
  saveReleaseToFiles w (Some release) d fs = (Ok tt, fs') ->
  exists l,
    chart_files w c fs = (Ok l, fs)
    /\ files fs' = fold_left (put_entry w d) l (files fs).
Proof.
  intros Hc H. unfold saveReleaseToFiles in H. rewrite Hc in H.
  apply bind_ok_inv in H as (l & fs1 & Hl & H).
  pose proof (chart_files_ok _ _ _ _ _ Hl) as (-> & _).
  exists l. split; [exact Hl |]. apply write_files_ok. exact H.
Qed.

Lemma scan_no_positive items :
  (forall s v, In s items -> parse_int (version_label s) = Some v -> v <= 0) ->
  fold_left latest_step items 0 = 0.
Proof.
  intros H. destruct (scan_spec items 0) as (H1 & H2 & [H3 | H3]);
    [exact H3 |].
  cbn zeta in *. set (r := fold_left latest_step items 0) in *.
  assert (r <= 0); [| lia].
  clear H1 H2. revert H3. generalize r. clear r. intros r.
  induction items as [| s items IH]; [contradiction |].
  rewrite label_revisions_cons.
  destruct (parse_int (version_label s)) as [v |] eqn:Hp.
  - intros [<- | Hin].
    + apply (H s v); [left; reflexivity | exact Hp].
    + apply IH; [| exact Hin]. intros s' v' Hs'. apply H. right; exact Hs'.
  - intros Hin. apply IH; [| exact Hin].
    intros s' v' Hs'. apply H. right; exact Hs'.
Qed.


(** ** The run of [ConvertReleaseVersion], step by step *)

Lemma convert_run w namespace releaseName revision fs :
  ConvertReleaseVersion w namespace releaseName revision fs =
  match GetClientset w with
  | inl e => (Err (Wrap e "get clientset"), fs)
  | inr cs =>
      match Secrets_List cs namespace
              (revision_labels releaseName revision) with
      | inl e => (Err (Wrap e "list secrets"), fs)
      | inr [item0] =>
          match helmReleaseFromReleaseData w (release_data item0) with
          | Err e => (Err (Wrap e "parse release info from secret"), fs)
          | Panic => (Panic, fs)
          | Ok helmRelease =>
              match ioutil_TempDir w "helm-release-" fs with
              | (Err e, fs1) => (Err (Wrap e "create temp dir"), fs1)
              | (Panic, fs1) => (Panic, fs1)
              | (Ok releaseDir, fs1) =>
                  defer (os_RemoveAll w releaseDir)
                    (bind (wrap "save release to files"
                             (saveReleaseToFiles w helmRelease releaseDir))
                       (fun _ =>
                          package_outputs w "." helmRelease releaseDir)) fs1
              end
          end
      | inr items => (Err (found_matching (length items)), fs)
      end
  end.
Proof.
  unfold ConvertReleaseVersion, SelectorFromSet.
  rewrite bind_run. unfold wrap at 1, lift at 1.
  destruct (GetClientset w) as [e | cs]; [reflexivity |].
  rewrite bind_run. unfold wrap at 1, lift at 1.
  destruct (Secrets_List cs namespace (revision_labels releaseName revision))
    as [e | items]; [reflexivity |].
  destruct items as [| item0 [| item1 items]]; [reflexivity | | reflexivity].
  cbn [length Nat.eqb negb].
  rewrite bind_run. unfold wrap at 1.
  destruct (helmReleaseFromReleaseData w (release_data item0));
    [| reflexivity | reflexivity].
  rewrite bind_run. unfold wrap at 1.
  destruct (ioutil_TempDir w "helm-release-" fs) as [[d | e |] fs1];
    reflexivity.
Qed.


Lemma package_outputs_names w dstDir release releaseDir fs chartFile
    valuesFile fs' :
  package_outputs w dstDir (Some release) releaseDir fs
  = (Ok (chartFile, valuesFile), fs') ->
  valuesFile =
  if Nat.eqb (size (helmrelease.Config release)) 0 then "."
  else Base (Join dstDir "values.yaml").
Proof.
  unfold package_outputs. intros H.
  apply bind_ok_inv in H as (cf & fs1 & _ & H).
  apply bind_ok_inv in H as (vf & fs2 & Hv & H).
  inversion H; subst; clear H.
  destruct (Nat.eqb (size (helmrelease.Config release)) 0); cbn [negb] in Hv.
  - inversion Hv; subst. reflexivity.
  - apply bind_ok_inv in Hv as (cd & fs3 & _ & Hv).
    apply bind_ok_inv in Hv as (u & fs4 & _ & Hv).
    inversion Hv; subst. reflexivity.
Qed.

(** ** The errors the functions return *)

Lemma find_latest_err w namespace releaseName e :
  FindLatestReleaseVersion w namespace releaseName = Err e ->
  exists c, e = Wrap c "get clientset" \/ e = Wrap c "list secrets".
Proof.
  unfold FindLatestReleaseVersion.
  destruct (GetClientset w) as [c | cs].
  - intros H; inversion H. eauto.
  - destruct (Secrets_List _ _ _) as [c | items]; intros H; inversion H. eauto.
Qed.

Lemma decode_err w data e :
  helmReleaseFromReleaseData w data = Err e ->
  exists c, e = Wrap c "create gzip reader"
            \/ e = Wrap c "read from gzip reader"
            \/ e = Wrap c "unmarshal release data".
Proof.
  unfold helmReleaseFromReleaseData.
  destruct (gzip_NewReader w (base64_NewDecoder data)) as [c | gz].
  - intros H; inversion H. eauto.
  - destruct (ReadAll gz) as [c | releaseData].
    + intros H; inversion H. eauto.
    + destruct (json_Unmarshal w releaseData) as [c | r];
        intros H; inversion H. eauto 6.
Qed.

Lemma package_outputs_err w dstDir helmRelease releaseDir fs e fs' :
  package_outputs w dstDir helmRelease releaseDir fs = (Err e, fs') ->
  exists c, e = Wrap c "package client run"
            \/ e = Wrap c "marshal config data"
            \/ e = Wrap c "write values file".
Proof.
  unfold package_outputs. intros H.
  apply bind_err_inv in H as [H | (chartFile & fs1 & _ & H)].
  { apply wrap_err_inv in H as (c & -> & _). eauto. }
  destruct helmRelease as [release |]; [| discriminate].
  apply bind_err_inv in H as [H | (v & fs2 & _ & H)]; [| discriminate].
  destruct (negb _); [| discriminate].
  apply bind_err_inv in H as [H | (configData & fs3 & _ & H)].
  { apply wrap_err_inv in H as (c & -> & _). eauto. }
  apply bind_err_inv in H as [H | (u & fs4 & _ & H)]; [| discriminate].
  apply wrap_err_inv in H as (c & -> & _). eauto 6.
Qed.

Ltac in_list :=
  split; [reflexivity | simpl; repeat (first [left; reflexivity | right])].

(** The context messages of [ConvertReleaseVersion]. *)
Lemma convert_err w namespace releaseName revision fs e fs' :
  ConvertReleaseVersion w namespace releaseName revision fs = (Err e, fs') ->
  (exists n, e = found_matching n)
  \/ exists c msg,
       e = Wrap c msg
       /\ In msg ["get clientset"; "list secrets";
                  "parse release info from secret"; "create temp dir";
                  "save release to files"; "package client run";
                  "marshal config data"; "write values file"].
Proof.
  rewrite convert_run.
  destruct (GetClientset w) as [c | cs].
  { intros H; inversion H. right. exists c, "get clientset". in_list. }
  destruct (Secrets_List _ _ _) as [c | items].
  { intros H; inversion H. right. exists c, "list secrets". in_list. }
  destruct items as [| item0 [| item1 items]];
    [intros H; inversion H; left; eauto | | intros H; inversion H; left; eauto].
  destruct (helmReleaseFromReleaseData w (release_data item0))
    as [helmRelease | c |].
  2:{ intros H; inversion H. right.
      exists c, "parse release info from secret". in_list. }
  2:{ intros H; discriminate H. }
  destruct (ioutil_TempDir w "helm-release-" fs) as [[d | c |] fs1].
  2:{ intros H; inversion H. right. exists c, "create temp dir". in_list. }
  2:{ intros H; discriminate H. }
  unfold defer.
  destruct (bind _ _ fs1) as [r fs2] eqn:Hb. intros H; inversion H; subst.
  apply bind_err_inv in Hb as [Hb | (u & fs3 & _ & Hb)].
  - apply wrap_err_inv in Hb as (c & -> & _). right.
    exists c, "save release to files". in_list.
  - apply package_outputs_err in Hb as (c & [-> | [-> | ->]]); right;
      eexists c, _; in_list.
Qed.

Lemma convert_err_wrapped w namespace releaseName revision fs e fs' :
  ConvertReleaseVersion w namespace releaseName revision fs = (Err e, fs') ->
  is_wrapped e \/ exists n, e = found_matching n.
Proof.
  intros H. apply convert_err in H as [H | (c & msg & -> & _)];
    [right; exact H | left; exists c, msg; reflexivity].
Qed.


(** ** Removing the temporary directory *)

Lemma remove_all_under d fs p :
  under d p = true ->
  files (fs_remove_all d fs) !! p = None /\ p ∉ dirs (fs_remove_all d fs).
Proof.
  intros Hu. split.
  - cbn. apply map_lookup_filter_None. right. intros x _. cbn.
    rewrite Hu. discriminate.
  - cbn. rewrite elem_of_filter. intros [H _]. rewrite Hu in H.
    discriminate.
Qed.

Lemma remove_all_other d fs p :
  under d p = false -> files (fs_remove_all d fs) !! p = files fs !! p.
Proof.
  intros Hu. cbn. destruct (files fs !! p) as [x |] eqn:Hp.
  - apply map_lookup_filter_Some. split; [exact Hp | exact Hu].
  - apply map_lookup_filter_None. left. exact Hp.
Qed.

Lemma not_occupied d fs p :
  occupied d fs = false -> under d p = true -> files fs !! p = None.
Proof.
  intros Hocc Hu. destruct (files fs !! p) as [x |] eqn:Hp; [| reflexivity].
  exfalso. unfold occupied in Hocc.
  assert (existsb (under d) (fs_paths fs) = true) as Hex; [| congruence].
  apply existsb_exists. exists p. split; [| exact Hu].
  unfold fs_paths. apply in_or_app. left. apply list_elem_of_In.
  apply list_elem_of_fmap. exists (p, x). split; [reflexivity |].
  apply elem_of_map_to_list. exact Hp.
Qed.

Lemma TempDir_ok w prefix fs d fs1 :
  ioutil_TempDir w prefix fs = (Ok d, fs1) ->
  occupied (resolve w d) fs = false
  /\ files fs1 = files fs
  /\ dirs fs1 = {[resolve w d]} ∪ dirs fs.
Proof.
  unfold ioutil_TempDir. destruct (TempDir_fault w fs); [discriminate |].
  destruct (occupied _ fs) eqn:Hocc; [discriminate |].
  intros H; inversion H; subst. auto.
Qed.

Lemma TempDir_fail w prefix fs r fs1 :
  ioutil_TempDir w prefix fs = (r, fs1) ->
  (forall d, r <> Ok d) -> fs1 = fs.
Proof.
  unfold ioutil_TempDir. destruct (TempDir_fault w fs).
  - intros H; inversion H; reflexivity.
  - destruct (occupied _ fs); intros H Hr; inversion H; subst;
      [reflexivity | exfalso; eapply Hr; reflexivity].
Qed.

(** ** What a run writes, and where *)

Lemma chart_files_state w c fs r fs' :
  chart_files w c fs = (r, fs') -> fs' = fs.
Proof.
  unfold chart_files. destruct (collect (chart.Files c) []);
    [| intros H; inversion H; reflexivity].
  destruct (collect (chart.Templates c) l);
    [| intros H; inversion H; reflexivity].
  rewrite !bind_run. unfold wrap, lift.
  destruct (yaml_Marshal_metadata w (chart.Metadata_ c));
    [intros H; inversion H; reflexivity |].
  destruct (yaml_Marshal_values w (chart.Values c));
    [intros H; inversion H; reflexivity |].
  destruct (json_Marshal_bytes (chart.Schema c));
    intros H; inversion H; reflexivity.
Qed.

Lemma chart_files_names w c fs l fs' :
  chart_files w c fs = (Ok l, fs') -> map save.Name l = chart_names c.
Proof.
  intros H. apply chart_files_ok in H
    as (_ & _ & _ & ym & yv & js & _ & _ & _ & ->).
  unfold chart_names. rewrite map_app, map_map, map_app.
  rewrite <- app_assoc. reflexivity.
Qed.

Lemma save_frame w helmRelease d fs r fs' p :
  saveReleaseToFiles w helmRelease d fs = (r, fs') ->
  files fs' !! p <> files fs !! p ->
  exists release c n,
    helmRelease = Some release /\ helmrelease.Chart release = Some c
    /\ In n (chart_names c) /\ p = tree_path w d n.
Proof.
  unfold saveReleaseToFiles.
  destruct helmRelease as [release |];
    [| intros H Hp; inversion H; subst; contradiction].
  destruct (helmrelease.Chart release) as [c |] eqn:Hc;
    [| intros H Hp; inversion H; subst; contradiction].
  rewrite bind_run. destruct (chart_files w c fs) as [r0 fs0] eqn:Hl.
  pose proof (chart_files_state _ _ _ _ _ Hl) as ->.
  destruct r0 as [l | e |];
    try (intros H Hp; inversion H; subst; contradiction).
  intros H Hp. exists release, c.
  destruct (in_dec string_dec p (map (tree_path w d) (map save.Name l)))
    as [Hin | Hnot].
  - apply in_map_iff in Hin as (n & <- & Hn).
    rewrite (chart_files_names _ _ _ _ _ Hl) in Hn. exists n. auto.
  - exfalso. apply Hp. eapply write_files_other; [exact H |].
    intros f Hf Heq. apply Hnot. apply in_map_iff.
    exists (save.Name f). split; [exact Heq |]. apply in_map. exact Hf.
Qed.

Lemma Package_Run_ok w destination path fs file fs' :
  action_Package_Run w destination path fs = (Ok file, fs') ->
  exists name archive,
    package_Run w fs (resolve w path) = inr (name, archive)
    /\ file = Join (resolve w destination) name
    /\ fs' = fs_write file archive fs.
Proof.
  unfold action_Package_Run.
  destruct (package_Run w fs (resolve w path)) as [e | [name archive]];
    intros H; inversion H; subst. eauto.
Qed.

Lemma Package_Run_fail w destination path fs r fs' :
  action_Package_Run w destination path fs = (r, fs') ->
  (forall file, r <> Ok file) -> fs' = fs.
Proof.
  unfold action_Package_Run.
  destruct (package_Run w fs (resolve w path)) as [e | [name archive]];
    intros H Hr; inversion H; subst;
    [reflexivity | exfalso; eapply Hr; reflexivity].
Qed.

Lemma values_step_frame w dstDir release fs r fs' p :
  values_step w dstDir release fs = (r, fs') ->
  p <> resolve w (Join dstDir "values.yaml") ->
  files fs' !! p = files fs !! p.
Proof.
  unfold values_step. destruct (negb _);
    [| intros H; inversion H; reflexivity].
  rewrite bind_run. unfold wrap at 1, lift.
  destruct (yaml_Marshal_values w (helmrelease.Config release))
    as [e | configData]; [intros H; inversion H; reflexivity |].
  rewrite bind_run.
  destruct (wrap _ (ioutil_WriteFile w _ configData) fs) as [r1 fs1] eqn:H1.
  intros H Hp. apply wrap_run_inv in H1 as [r0 H0].
  pose proof (WriteFile_other _ _ _ _ _ _ p H0 Hp) as E.
  destruct r1 as [[] | e |]; inversion H; subst; exact E.
Qed.

Lemma package_outputs_run w dstDir helmRelease releaseDir fs :
  package_outputs w dstDir helmRelease releaseDir fs =
  match wrap "package client run"
          (action_Package_Run w dstDir releaseDir) fs with
  | (Ok chartFile, fs1) =>
      match helmRelease with
      | None => (Panic, fs1)
      | Some release =>
          match values_step w dstDir release fs1 with
          | (Ok valuesFile, fs2) => (Ok (Base chartFile, Base valuesFile), fs2)
          | (Err e, fs2) => (Err e, fs2)
          | (Panic, fs2) => (Panic, fs2)
          end
      end
  | (Err e, fs1) => (Err e, fs1)
  | (Panic, fs1) => (Panic, fs1)
  end.
Proof.
  unfold package_outputs. rewrite bind_run.
  destruct (wrap _ _ fs) as [[chartFile | e |] fs1]; try reflexivity.
  destruct helmRelease as [release |]; reflexivity.
Qed.

Lemma fs_write_other p data fs q :
  q <> p -> files (fs_write p data fs) !! q = files fs !! q.
Proof. intros H. cbn. apply lookup_insert_ne. congruence. Qed.

Lemma values_step_err w dstDir release fs e fs' :
  values_step w dstDir release fs = (Err e, fs') ->
  exists c, e = Wrap c "marshal config data"
            \/ e = Wrap c "write values file".
Proof.
  unfold values_step. destruct (negb _); [| discriminate].
  intros H. apply bind_err_inv in H as [H | (configData & fs1 & _ & H)].
  { apply wrap_err_inv in H as (c & -> & _). eauto. }
  apply bind_err_inv in H as [H | (u & fs2 & _ & H)]; [| discriminate].
  apply wrap_err_inv in H as (c & -> & _). eauto.
Qed.

(** What [package_outputs] changes: the archive and the values file, and
    nothing when packaging fails. *)
Lemma package_frame w dstDir helmRelease releaseDir fs r fs' p :
  package_outputs w dstDir helmRelease releaseDir fs = (r, fs') ->
  files fs' !! p <> files fs !! p ->
  (p = resolve w (Join dstDir "values.yaml")
   \/ exists name archive,
        package_Run w fs (resolve w releaseDir) = inr (name, archive)
        /\ p = Join (resolve w dstDir) name)
  /\ (forall c, r <> Err (Wrap c "package client run"))
  /\ (forall c, r <> Err (Wrap c "save release to files")).
Proof.
  rewrite package_outputs_run.
  destruct (wrap _ (action_Package_Run w dstDir releaseDir) fs)
    as [r1 fs1] eqn:H1.
  apply wrap_run_inv in H1 as H0. destruct H0 as [r0 H0].
  destruct r1 as [chartFile | e |].
  2,3: intros H Hp; inversion H; subst; exfalso; apply Hp; f_equal;
       f_equal; eapply Package_Run_fail; [exact H0 |];
       intros file ->; unfold wrap in H1; rewrite H0 in H1; discriminate H1.
  assert (r0 = Ok chartFile) as ->.
  { unfold wrap in H1. rewrite H0 in H1.
    destruct r0; inversion H1; reflexivity. }
  apply Package_Run_ok in H0 as (name & archive & Hrun & -> & ->).
  destruct helmRelease as [release |].
  - destruct (values_step w dstDir release _) as [r2 fs2] eqn:H2.
    intros H Hp.
    assert (files fs' = files fs2 /\
            (forall c, r <> Err (Wrap c "package client run")) /\
            (forall c, r <> Err (Wrap c "save release to files")))
      as (E & N1 & N2).
    { destruct r2 as [v | e |]; inversion H; subst;
        (split; [reflexivity | split; intros c Hc; try discriminate Hc]).
      all: inversion Hc; subst;
        apply values_step_err in H2 as (c' & [H2 | H2]); discriminate H2. }
    split; [| split; assumption]. rewrite E in Hp.
    destruct (string_dec p (resolve w (Join dstDir "values.yaml")))
      as [-> | Hv]; [left; reflexivity | right].
    rewrite (values_step_frame _ _ _ _ _ _ p H2 Hv) in Hp.
    exists name, archive. split; [exact Hrun |].
    destruct (string_dec p (Join (resolve w dstDir) name)) as [-> | Ha];
      [reflexivity |].
    exfalso. apply Hp. apply fs_write_other. exact Ha.
  - intros H Hp. inversion H; subst.
    split; [| split; intros c Hc; discriminate Hc]. right.
    exists name, archive. split; [exact Hrun |].
    destruct (string_dec p (Join (resolve w dstDir) name)) as [-> | Ha];
      [reflexivity |].
    exfalso. apply Hp. apply fs_write_other. exact Ha.
Qed.

(** The part of [ConvertReleaseVersion] under the deferred removal. *)
Lemma tree_frame w helmRelease d fs r fs' p :
  bind (wrap "save release to files" (saveReleaseToFiles w helmRelease d))
    (fun _ => package_outputs w "." helmRelease d) fs = (r, fs') ->
  files fs' !! p <> files fs !! p ->
  (exists release c n,
     helmRelease = Some release /\ helmrelease.Chart release = Some c
     /\ In n (chart_names c) /\ p = tree_path w d n)
  \/ ((p = resolve w (Join "." "values.yaml") \/ archive_path w p)
      /\ (forall c, r <> Err (Wrap c "package client run"))
      /\ (forall c, r <> Err (Wrap c "save release to files"))).
Proof.
  rewrite bind_run.
  destruct (wrap _ (saveReleaseToFiles w helmRelease d) fs) as [r1 fs1] eqn:H1.
  apply wrap_run_inv in H1 as [r0 H0]. intros H Hp.
  destruct (option_eq_dec (files fs1 !! p) (files fs !! p)) as [E | N].
  - destruct r1 as [[] | e |];
      try (inversion H; subst; exfalso; apply Hp; exact E).
    rewrite <- E in Hp.
    destruct (package_frame _ _ _ _ _ _ _ _ H Hp) as ([Hv | Ha] & N1 & N2).
    + right. auto.
    + right. split; [| auto]. right.
      destruct Ha as (name & archive & Hrun & ->).
      exists fs1, (resolve w d), name, archive. auto.
  - left. eapply save_frame; [exact H0 | exact N].
Qed.

(** ** Failing calls *)

Lemma collect_present l : forall acc,
  ~ In None l -> collect l acc = Some (acc ++ map as_chartFile (present l))%list.
Proof.
  induction l as [| [f |] l IH]; intros acc Hn.
  - cbn. rewrite app_nil_r. reflexivity.
  - cbn [collect]. rewrite IH by (intros H; apply Hn; right; exact H).
    change (present (Some f :: l)) with (f :: present l). cbn [map].
    rewrite <- app_assoc. reflexivity.
  - exfalso. apply Hn. left. reflexivity.
Qed.

Lemma write_files_app w d l1 l2 fs fs1 :
  write_files w d l1 fs = (Ok tt, fs1) ->
  write_files w d (l1 ++ l2) fs = write_files w d l2 fs1.
Proof.
  revert fs. induction l1 as [| f l1 IH]; intros fs H.
  - inversion H; subst. reflexivity.
  - cbn [app write_files] in *.
    apply bind_ok_inv in H as ([] & fs2 & H1 & H).
    apply bind_ok_inv in H as ([] & fs3 & H2 & H).
    rewrite bind_run, H1, bind_run, H2. apply IH. exact H.
Qed.

Lemma reaches_tree_run w namespace releaseName revision fs helmRelease d fs1 :
  reaches_tree w namespace releaseName revision fs helmRelease d fs1 ->
  ConvertReleaseVersion w namespace releaseName revision fs
  = defer (os_RemoveAll w d)
      (bind (wrap "save release to files"
               (saveReleaseToFiles w helmRelease d))
         (fun _ => package_outputs w "." helmRelease d)) fs1.
Proof.
  intros (cs & item0 & Hcs & Hlist & Hdec & Htmp).
  rewrite convert_run, Hcs, Hlist, Hdec, Htmp. reflexivity.
Qed.

Lemma save_error_run w namespace releaseName revision fs helmRelease d fs1
    e fs2 :
  reaches_tree w namespace releaseName revision fs helmRelease d fs1 ->
  saveReleaseToFiles w helmRelease d fs1 = (Err e, fs2) ->
  ConvertReleaseVersion w namespace releaseName revision fs
  = (Err (Wrap e "save release to files"), os_RemoveAll w d fs2).
Proof.
  intros Hreach Hsave. rewrite (reaches_tree_run _ _ _ _ _ _ _ _ Hreach).
  unfold defer. rewrite bind_run. unfold wrap at 1. rewrite Hsave.
  reflexivity.
Qed.

Lemma outputs_error_run w namespace releaseName revision fs helmRelease d
    fs1 fs2 e fs3 :
  reaches_tree w namespace releaseName revision fs helmRelease d fs1 ->
  saveReleaseToFiles w helmRelease d fs1 = (Ok tt, fs2) ->
  package_outputs w "." helmRelease d fs2 = (Err e, fs3) ->
  ConvertReleaseVersion w namespace releaseName revision fs
  = (Err e, os_RemoveAll w d fs3).
Proof.
  intros Hreach Hsave Hout. rewrite (reaches_tree_run _ _ _ _ _ _ _ _ Hreach).
  unfold defer. rewrite bind_run. unfold wrap at 1. rewrite Hsave, Hout.
  reflexivity.
Qed.

(** Every failing external call makes [ConvertReleaseVersion] return the
    call's error under its context messages. *)
Lemma convert_call_fails_run w namespace releaseName revision fs e0 e :
  convert_call_fails w namespace releaseName revision fs e0 e ->
  exists fs',
    ConvertReleaseVersion w namespace releaseName revision fs = (Err e, fs').
Proof.
  intros H. destruct H.
  - exists fs. rewrite convert_run, H. reflexivity.
  - exists fs. rewrite convert_run, H, H0. reflexivity.
  - exists fs. rewrite convert_run, H, H0.
    unfold helmReleaseFromReleaseData. rewrite H1. reflexivity.
  - exists fs. rewrite convert_run, H, H0.
    unfold helmReleaseFromReleaseData. rewrite H1, H2. reflexivity.
  - exists fs. rewrite convert_run, H, H0.
    unfold helmReleaseFromReleaseData. rewrite H1, H2, H3. reflexivity.
  - exists fs1. rewrite convert_run, H, H0, H1, H2. reflexivity.
  - eexists. eapply save_error_run; [exact H |].
    unfold saveReleaseToFiles. rewrite H0, bind_run. unfold chart_files.
    rewrite !collect_present by assumption.
    rewrite bind_run. unfold wrap at 1, lift. rewrite H3. reflexivity.
  - eexists. eapply save_error_run; [exact H |].
    unfold saveReleaseToFiles. rewrite H0, bind_run. unfold chart_files.
    rewrite !collect_present by assumption.
    rewrite bind_run. unfold wrap at 1, lift. rewrite H3.
    rewrite bind_run. unfold wrap at 1, lift. rewrite H4. reflexivity.
  - destruct H as (release & c & Hreach & Hc & Hfiles).
    eexists. eapply save_error_run; [exact Hreach |].
    unfold saveReleaseToFiles. rewrite Hc, bind_run, Hfiles.
    rewrite (write_files_app _ _ _ _ _ _ H0). cbn [write_files].
    rewrite bind_run. unfold wrap at 1, os_MkdirAll. rewrite H1.
    reflexivity.
  - destruct H as (release & c & Hreach & Hc & Hfiles).
    eexists. eapply save_error_run; [exact Hreach |].
    unfold saveReleaseToFiles. rewrite Hc, bind_run, Hfiles.
    rewrite (write_files_app _ _ _ _ _ _ H0). cbn [write_files].
    rewrite bind_run. unfold wrap at 1. rewrite H1.
    rewrite bind_run. unfold wrap at 1, ioutil_WriteFile. rewrite H2.
    reflexivity.
  - eexists. eapply outputs_error_run; [exact H | exact H0 |].
    unfold package_outputs. rewrite bind_run.
    unfold wrap at 1, action_Package_Run. rewrite H1. reflexivity.
  - destruct H as (d & fs1 & Hreach & Hsave & Hpk & Hsize).
    eexists. eapply outputs_error_run; [exact Hreach | exact Hsave |].
    unfold package_outputs. rewrite bind_run.
    unfold wrap at 1, action_Package_Run. rewrite Hpk.
    rewrite bind_run.
    rewrite (proj2 (Nat.eqb_neq _ _) Hsize). cbn [negb].
    rewrite bind_run. unfold wrap at 1, lift. rewrite H0. reflexivity.
  - destruct H as (d & fs1 & Hreach & Hsave & Hpk & Hsize).
    eexists. eapply outputs_error_run; [exact Hreach | exact Hsave |].
    unfold package_outputs. rewrite bind_run.
    unfold wrap at 1, action_Package_Run. rewrite Hpk.
    rewrite bind_run.
    rewrite (proj2 (Nat.eqb_neq _ _) Hsize). cbn [negb].
    rewrite bind_run. unfold wrap at 1, lift. rewrite H0.
    rewrite bind_run. unfold wrap at 1, ioutil_WriteFile. rewrite H1.
    reflexivity.
Qed.

Lemma convert_call_fails_cause w namespace releaseName revision fs e0 e :
  convert_call_fails w namespace releaseName revision fs e0 e ->
  is_wrapped e /\ Cause e = Cause e0.
Proof.
  intros H. destruct H; (split; [eexists _, _; reflexivity | reflexivity]).
Qed.

Lemma find_call_fails_run w namespace releaseName e0 e :
  find_call_fails w namespace releaseName e0 e ->
  FindLatestReleaseVersion w namespace releaseName = Err e
  /\ is_wrapped e /\ Cause e = Cause e0.
Proof.
  intros H. destruct H; unfold FindLatestReleaseVersion, SelectorFromSet.
  - rewrite H. repeat split. eexists _, _; reflexivity.
  - rewrite H, H0. repeat split. eexists _, _; reflexivity.
Qed.

(** ** Directories *)












(** * The claims *)

(** C1, on the code: for a chart whose schema is [{}], the
    values.schema.json written for the one matching revision is not the
    schema: [json.Marshal] is given the schema's bytes and writes the JSON
    string of their base64 text, ["e30="] between quotes. *)
Theorem C1_schema_file_is_not_the_schema :
  let w := example.plain_world (Some (bytes_of "{}")) in
  let c := example.a_chart (Some (bytes_of "{}")) [] in
  let release := example.a_release c ∅ in
  let created := ioutil_TempDir w "helm-release-" example.fs0 in
  let saved :=
    saveReleaseToFiles w (Some release) "/tmp/helm-release-042"
      (snd created) in
  reaches_tree w "default" "pg" 1 example.fs0 (Some release)
    "/tmp/helm-release-042" (snd created)
  /\ fst saved = Ok tt
  /\ original_schema c = Some (bytes_of "{}")
  /\ files (snd saved) !! "/tmp/helm-release-042/values.schema.json"
     = Some (Byte.x22 :: bytes_of "e30=" ++ [Byte.x22])
  /\ files (snd saved) !! "/tmp/helm-release-042/values.schema.json"
     <> original_schema c.
Proof.
  cbv zeta. split; [| split; [| split; [| split]]].
  - exists (example.a_clientset [example.a_secret "1"]), (example.a_secret "1").
    split; [| split; [| split]]; vm_compute; reflexivity.
  - vm_compute. reflexivity.
  - reflexivity.
  - vm_compute. reflexivity.
  - vm_compute. discriminate.
Qed.

(** C2: when the secrets matching owner, name and version are not exactly
    one, [ConvertReleaseVersion] returns the error reporting their number
    and leaves the file system as it was. *)
Theorem C2_no_single_match_is_an_error (w : World) (cs : Clientset)
    (namespace releaseName : string) (revision : Z) (fs : FS) :
  GetClientset w = inr cs ->
  List_fault cs namespace (revision_labels releaseName revision) = None ->
  let n :=
    length (List.filter (selects (revision_labels releaseName revision))
              (stored cs namespace)) in
  n <> 1%nat ->
  ConvertReleaseVersion w namespace releaseName revision fs
  = (Err (found_matching n), fs).
Proof.
  intros Hc Hl n Hn. rewrite convert_run, Hc. unfold Secrets_List.
  rewrite Hl. subst n.
  destruct (List.filter _ _) as [| item0 [| item1 items]];
    [reflexivity | | reflexivity].
  exfalso. apply Hn. reflexivity.
Qed.

Lemma C2_witness :
  ConvertReleaseVersion
    (example.store_world [example.a_secret "1"; example.a_secret "1"])
    "default" "pg" 1 example.fs0
  = (Err (Fundamental "found 2 matching releases"), example.fs0).
Proof.
  apply (C2_no_single_match_is_an_error
           (example.store_world [example.a_secret "1"; example.a_secret "1"])
           (example.a_clientset [example.a_secret "1"; example.a_secret "1"])
           "default" "pg" 1 example.fs0 eq_refl eq_refl).
  vm_compute. discriminate.
Defined.


(** C3, as stated, fails: with no secret the result 0 is no label value,
    and with the single label [-5] the result is 0, not -5. *)
Lemma C3_counterexample :
  (FindLatestReleaseVersion (example.store_world []) "default" "pg" = Ok 0
   /\ ~ is_maximum 0 (label_revisions []))
  /\ (FindLatestReleaseVersion
        (example.store_world [example.a_secret "-5"]) "default" "pg" = Ok 0
      /\ label_revisions [example.a_secret "-5"] = [-5]
      /\ ~ is_maximum 0 [-5]).
Proof.
  split; [split | split; [| split]].
  - reflexivity.
  - intros [H _]. exact H.
  - vm_compute. reflexivity.
  - vm_compute. reflexivity.
  - intros [[H | H] _]; [discriminate | exact H].
Qed.

(** C3, amended: [FindLatestReleaseVersion] returns, by one scan from the
    left, the greatest of 0 and the version labels that parse; it is the
    maximum of the label values whenever one of them is not negative. *)
Theorem C3_latest_is_maximum_from_zero (w : World) (cs : Clientset)
    (namespace releaseName : string) :
  GetClientset w = inr cs ->
  List_fault cs namespace (release_labels releaseName) = None ->
  let items :=
    List.filter (selects (release_labels releaseName)) (stored cs namespace) in
  let r := fold_left latest_step items 0 in
  FindLatestReleaseVersion w namespace releaseName = Ok r
  /\ 0 <= r
  /\ (forall v, In v (label_revisions items) -> v <= r)
  /\ (r = 0 \/ In r (label_revisions items))
  /\ ((exists v, In v (label_revisions items) /\ 0 <= v) ->
      is_maximum r (label_revisions items)).
Proof.
  intros Hc Hl items r.
  destruct (scan_spec items 0) as (H1 & H2 & H3). fold r in H1, H2, H3.
  split; [apply find_latest_run; assumption |].
  repeat split; try assumption.
  - destruct H3 as [H3 | H3]; [| exact H3].
    destruct H as (v & Hv & Hpos).
    assert (v = r) as <- by (specialize (H2 v Hv); lia). exact Hv.
Qed.

Lemma C3_witness :
  FindLatestReleaseVersion
    (example.store_world [example.a_secret "2"; example.a_secret "10"])
    "default" "pg" = Ok 10.
Proof.
  exact (proj1 (C3_latest_is_maximum_from_zero
                  (example.store_world
                     [example.a_secret "2"; example.a_secret "10"])
                  (example.a_clientset
                     [example.a_secret "2"; example.a_secret "10"])
                  "default" "pg" eq_refl eq_refl)).
Defined.

(** C5, on the code: a release without override values is converted
    successfully, the archive is in the working directory and no values file
    is written, but the values-file name returned is [.], not the empty
    string, and the printed command passes it to [--values]. *)
Theorem C5_empty_config_is_named_dot :
  let run :=
    ConvertReleaseVersion (example.plain_world None) "default" "pg" 1
      example.fs0 in
  fst run = Ok ("pg-1.0.0.tgz", ".")
  /\ files (snd run) !! "/home/u/pg-1.0.0.tgz" = Some (bytes_of "archive")
  /\ files (snd run) !! "/home/u/values.yaml" = None
  /\ stdout (InitAndExecute (example.plain_world None) (example.invoke "1")
               example.fs0)
     = ["Chart has been saved to pg-1.0.0.tgz";
        "To install the chart, run the following command:";
        "";
        "helm install pg pg-1.0.0.tgz --values . --namespace default";
        ""].
Proof. vm_compute. repeat split. Qed.


(** C6, as stated, fails: when the values file cannot be written,
    [ConvertReleaseVersion] returns an error and the archive (and a
    truncated values file) stay in the working directory. *)
Lemma C6_counterexample :
  let run :=
    ConvertReleaseVersion (example.overriding_world example.values_fault)
      "default" "pg" 1 example.fs0 in
  fst run
  = Err (Wrap (Fundamental "no space left on device") "write values file")
  /\ files example.fs0 !! "/home/u/pg-1.0.0.tgz" = None
  /\ files (snd run) !! "/home/u/pg-1.0.0.tgz" = Some (bytes_of "archive")
  /\ files (snd run) !! "/home/u/values.yaml" = Some [].
Proof. vm_compute. repeat split. Qed.

(** C6, amended: an error other than one from marshalling or writing the
    values file leaves every file as it was, except where a chart file name
    resolves outside the temporary directory; an error from the values file
    comes after the archive was saved, and the archive stays. *)
Theorem C6_no_output_before_the_values_file (w : World)
    (namespace releaseName : string) (revision : Z) (fs : FS)
    (e : error) (fs' : FS) :
  ConvertReleaseVersion w namespace releaseName revision fs = (Err e, fs') ->
  ((forall c, e <> Wrap c "marshal config data") ->
   (forall c, e <> Wrap c "write values file") ->
   forall p, files fs' !! p <> files fs !! p ->
             escaped_chart_file w namespace releaseName revision fs p)
  /\ ((exists c, e = Wrap c "marshal config data"
                 \/ e = Wrap c "write values file") ->
      exists helmRelease d fs1 fs2 name archive,
        reaches_tree w namespace releaseName revision fs helmRelease d fs1
        /\ package_Run w fs2 (resolve w d) = inr (name, archive)
        /\ (under (resolve w d) (Join (resolve w ".") name) = false ->
            Join (resolve w ".") name <> resolve w (Join "." "values.yaml") ->
            files fs' !! Join (resolve w ".") name = Some archive)).
Proof.
  intros Hrun.
  pose proof Hrun as Hrun0. rewrite convert_run in Hrun.
  destruct (GetClientset w) as [c0 | cs] eqn:Hcs.
  { inversion Hrun; subst. split.
    - intros _ _ p Hp. contradiction.
    - intros (c & [H | H]); discriminate H. }
  destruct (Secrets_List _ _ _) as [c0 | items] eqn:Hlist.
  { inversion Hrun; subst. split.
    - intros _ _ p Hp. contradiction.
    - intros (c & [H | H]); discriminate H. }
  destruct items as [| item0 [| item1 items]].
  1,3: inversion Hrun; subst; split;
       [intros _ _ p Hp; contradiction
       | intros (c & [H | H]); discriminate H].
  destruct (helmReleaseFromReleaseData w (release_data item0))
    as [helmRelease | c0 |] eqn:Hdec; [| | discriminate Hrun].
  2:{ inversion Hrun; subst. split.
      - intros _ _ p Hp. contradiction.
      - intros (c & [H | H]); discriminate H. }
  destruct (ioutil_TempDir w "helm-release-" fs) as [[d | c0 |] fs1] eqn:Htmp;
    [| | discriminate Hrun].
  2:{ inversion Hrun; subst.
      apply TempDir_fail in Htmp; [| intros d Hd; discriminate Hd]. subst.
      split.
      - intros _ _ p Hp. contradiction.
      - intros (c & [H | H]); discriminate H. }
  assert (reaches_tree w namespace releaseName revision fs helmRelease d fs1)
    as Hreach by (exists cs, item0; auto).
  unfold defer in Hrun.
  destruct (bind _ _ fs1) as [r fs2] eqn:Hb. inversion Hrun; subst r fs'.
  apply TempDir_ok in Htmp as (Hfresh & Hfiles & _).
  split.
  - intros Hm Hw p Hp. destruct (under (resolve w d) p) eqn:Hu.
    + exfalso. apply Hp. unfold os_RemoveAll.
      rewrite (proj1 (remove_all_under _ fs2 _ Hu)).
      symmetry. eapply not_occupied; eassumption.
    + unfold os_RemoveAll in Hp.
      rewrite (remove_all_other _ _ _ Hu), <- Hfiles in Hp.
      destruct (tree_frame _ _ _ _ _ _ _ Hb Hp)
        as [(release & c & n & -> & Hc & Hn & ->) | (_ & N1 & N2)].
      * exists release, c, d, fs1, n. auto.
      * exfalso. apply bind_err_inv in Hb as [Hb | (u & fs3 & _ & Hb)].
        -- apply wrap_err_inv in Hb as (c & -> & _). apply (N2 c).
           reflexivity.
        -- apply package_outputs_err in Hb as (c & [-> | [-> | ->]]).
           ++ apply (N1 c). reflexivity.
           ++ apply (Hm c). reflexivity.
           ++ apply (Hw c). reflexivity.
  - intros Hstage.
    apply bind_err_inv in Hb as [Hb | (u & fs3 & _ & Hb)].
    { apply wrap_err_inv in Hb as (c & -> & _).
      destruct Hstage as (c' & [H | H]); discriminate H. }
    rewrite package_outputs_run in Hb.
    destruct (wrap _ (action_Package_Run w "." d) fs3) as [r1 fs4] eqn:H1.
    destruct r1 as [chartFile | e1 |]; [| | discriminate Hb].
    2:{ inversion Hb; subst. apply wrap_err_inv in H1 as (c & -> & _).
        destruct Hstage as (c' & [H | H]); discriminate H. }
    apply wrap_ok_inv in H1.
    apply Package_Run_ok in H1 as (name & archive & Hpk & -> & ->).
    exists helmRelease, d, fs1, fs3, name, archive.
    split; [exact Hreach | split; [exact Hpk |]].
    intros Hu Hne. unfold os_RemoveAll. rewrite (remove_all_other _ _ _ Hu).
    destruct helmRelease as [release |]; [| discriminate Hb].
    destruct (values_step w "." release _) as [r2 fs5] eqn:H2.
    assert (fs5 = fs2) as -> by (destruct r2; inversion Hb; reflexivity).
    rewrite (values_step_frame _ _ _ _ _ _ _ H2 Hne).
    cbn. apply lookup_insert_eq.
Qed.

Lemma C6_witness :
  exists helmRelease d fs1 fs2 name archive,
    reaches_tree (example.overriding_world example.values_fault)
      "default" "pg" 1 example.fs0 helmRelease d fs1
    /\ package_Run (example.overriding_world example.values_fault) fs2
         (resolve (example.overriding_world example.values_fault) d)
       = inr (name, archive)
    /\ (under (resolve (example.overriding_world example.values_fault) d)
          (Join (resolve (example.overriding_world example.values_fault) ".")
             name) = false ->
        Join (resolve (example.overriding_world example.values_fault) ".") name
        <> resolve (example.overriding_world example.values_fault)
             (Join "." "values.yaml") ->
        files
          (snd (ConvertReleaseVersion
                  (example.overriding_world example.values_fault)
                  "default" "pg" 1 example.fs0))
          !! Join (resolve (example.overriding_world example.values_fault) ".")
               name
        = Some archive).
Proof.
  refine (proj2 (C6_no_output_before_the_values_file
                   (example.overriding_world example.values_fault)
                   "default" "pg" 1 example.fs0
                   (Wrap (Fundamental "no space left on device")
                      "write values file")
                   (snd (ConvertReleaseVersion
                           (example.overriding_world example.values_fault)
                           "default" "pg" 1 example.fs0)) _) _).
  - vm_compute. reflexivity.
  - exists (Fundamental "no space left on device"). right. reflexivity.
Defined.

(** C7, as stated, fails: the error that reaches the top level is not the
    one [ConvertReleaseVersion] returned but that error wrapped once
    more. *)
Lemma C7_counterexample :
  ConvertReleaseVersion example.offline_world "default" "pg" 1 example.fs0
  = (Err (Wrap (Fundamental "no kubeconfig") "get clientset"), example.fs0)
  /\ top_error
       (InitAndExecute example.offline_world (example.invoke "1") example.fs0)
     = Some (Wrap (Wrap (Fundamental "no kubeconfig") "get clientset")
               "convert release")
  /\ top_error
       (InitAndExecute example.offline_world (example.invoke "1") example.fs0)
     <> Some (Wrap (Fundamental "no kubeconfig") "get clientset").
Proof. repeat split. discriminate. Qed.

(** C7, amended: every failing external call of [FindLatestReleaseVersion]
    and of [ConvertReleaseVersion] makes the function return the call's error
    under a context message; the command returns that error wrapped once
    more, with the same cause, and the process ends with status 1. *)
Theorem C7_failures_are_wrapped_and_end_the_process (w : World)
    (namespace releaseName : string) :
  (forall e0 e,
     find_call_fails w namespace releaseName e0 e ->
     FindLatestReleaseVersion w namespace releaseName = Err e
     /\ is_wrapped e /\ Cause e = Cause e0
     /\ forall (inv : Invocation) rest fs,
          args inv = releaseName :: rest ->
          flag_namespace inv = namespace ->
          flag_revision inv = "" ->
          status (InitAndExecute w inv fs) = 1
          /\ top_error (InitAndExecute w inv fs)
             = Some (Wrap e "find latest revision")
          /\ Cause (Wrap e "find latest revision") = Cause e0)
  /\ (forall revision fs e0 e,
        convert_call_fails w namespace releaseName revision fs e0 e ->
        exists fs',
          ConvertReleaseVersion w namespace releaseName revision fs
          = (Err e, fs')
          /\ is_wrapped e /\ Cause e = Cause e0
          /\ forall (inv : Invocation) rest,
               args inv = releaseName :: rest ->
               flag_namespace inv = namespace ->
               chosen_revision w inv releaseName revision ->
               status (InitAndExecute w inv fs) = 1
               /\ top_error (InitAndExecute w inv fs)
                  = Some (Wrap e "convert release")
               /\ Cause (Wrap e "convert release") = Cause e0).
Proof.
  split.
  - intros e0 e Hfail.
    destruct (find_call_fails_run _ _ _ _ _ Hfail) as (Hrun & Hw & Hc).
    split; [exact Hrun | split; [exact Hw | split; [exact Hc |]]].
    intros inv rest fs Hargs Hns Hflag.
    assert (RunE w inv fs = (Err (Wrap e "find latest revision"), fs)) as Hr.
    { unfold RunE. rewrite Hargs, Hflag, Hns. cbn [String.eqb negb].
      rewrite bind_run. unfold wrap at 1. rewrite Hrun. reflexivity. }
    unfold InitAndExecute, Execute. rewrite Hr. cbn [status top_error Cause].
    auto.
  - intros revision fs e0 e Hfail.
    destruct (convert_call_fails_run _ _ _ _ _ _ _ Hfail) as (fs' & Hrun).
    destruct (convert_call_fails_cause _ _ _ _ _ _ _ Hfail) as (Hw & Hc).
    exists fs'. split; [exact Hrun | split; [exact Hw | split; [exact Hc |]]].
    intros inv rest Hargs Hns Hrev.
    assert (RunE w inv fs = (Err (Wrap e "convert release"), fs')) as Hr.
    { unfold RunE. rewrite Hargs, Hns, bind_run.
      unfold chosen_revision in Hrev. rewrite Hns in Hrev.
      destruct (String.eqb (flag_revision inv) ""); cbn [negb].
      - unfold wrap at 1. rewrite Hrev.
        rewrite bind_run. unfold wrap at 1. rewrite Hrun. reflexivity.
      - unfold wrap at 1, lift at 1. rewrite Hrev.
        rewrite bind_run. unfold wrap at 1. rewrite Hrun. reflexivity. }
    unfold InitAndExecute, Execute. rewrite Hr. cbn [status top_error Cause].
    auto.
Qed.

Lemma C7_witness :
  exists fs',
    ConvertReleaseVersion (example.overriding_world example.values_fault)
      "default" "pg" 1 example.fs0
    = (Err (Wrap (Fundamental "no space left on device")
              "write values file"), fs')
    /\ status
         (InitAndExecute (example.overriding_world example.values_fault)
            (example.invoke "1") example.fs0) = 1
    /\ top_error
         (InitAndExecute (example.overriding_world example.values_fault)
            (example.invoke "1") example.fs0)
       = Some (Wrap (Wrap (Fundamental "no space left on device")
                       "write values file") "convert release").
Proof.
  destruct (proj2 (C7_failures_are_wrapped_and_end_the_process
                     (example.overriding_world example.values_fault)
                     "default" "pg")
              1 example.fs0 (Fundamental "no space left on device")
              (Wrap (Fundamental "no space left on device")
                 "write values file"))
    as (fs' & Hrun & _ & _ & Htop).
  - apply (write_values_fails _ _ _ _ _
             (example.a_release (example.a_chart None []) example.overrides)
             (snd (saveReleaseToFiles
                     (example.overriding_world example.values_fault)
                     (Some (example.a_release (example.a_chart None [])
                              example.overrides))
                     "/tmp/helm-release-042"
                     (snd (ioutil_TempDir
                             (example.overriding_world example.values_fault)
                             "helm-release-" example.fs0))))
             "pg-1.0.0.tgz" (bytes_of "archive") (bytes_of "replicas: 2")
             {| write_error := Fundamental "no space left on device";
                write_left := Some [] |}).
    + exists "/tmp/helm-release-042",
        (snd (ioutil_TempDir (example.overriding_world example.values_fault)
                "helm-release-" example.fs0)).
      split; [| split; [| split]].
      * exists (example.a_clientset [example.a_secret "1"]),
          (example.a_secret "1").
        split; [| split; [| split]]; vm_compute; reflexivity.
      * vm_compute. reflexivity.
      * reflexivity.
      * vm_compute. discriminate.
    + reflexivity.
    + vm_compute. reflexivity.
  - exists fs'. split; [exact Hrun |].
    destruct (Htop (example.invoke "1") [] eq_refl eq_refl eq_refl)
      as (Hs & Ht & _).
    split; [exact Hs | exact Ht].
Defined.




(** C9: secrets whose version label is missing or does not parse do not
    change the result of [FindLatestReleaseVersion], which is [Ok] whenever
    the cluster calls succeed, and [Ok 0] when no label parses to a positive
    number. *)
Theorem C9_malformed_revisions_are_skipped (w : World) (cs : Clientset)
    (namespace releaseName : string) :
  GetClientset w = inr cs ->
  List_fault cs namespace (release_labels releaseName) = None ->
  let items :=
    List.filter (selects (release_labels releaseName)) (stored cs namespace) in
  FindLatestReleaseVersion w namespace releaseName
  = Ok (fold_left latest_step (List.filter has_revision items) 0)
  /\ ((forall s v, In s items ->
         parse_int (version_label s) = Some v -> v <= 0) ->
      FindLatestReleaseVersion w namespace releaseName = Ok 0).
Proof.
  intros Hc Hl items. rewrite (find_latest_run w cs) by assumption.
  fold items. split.
  - rewrite scan_skips. reflexivity.
  - intros H. rewrite (scan_no_positive items H). reflexivity.
Qed.

Lemma C9_witness :
  FindLatestReleaseVersion
    (example.store_world
       [example.unlabelled; example.a_secret "v2"; example.a_secret ""])
    "default" "pg" = Ok 0.
Proof.
  apply (C9_malformed_revisions_are_skipped
           (example.store_world
              [example.unlabelled; example.a_secret "v2"; example.a_secret ""])
           (example.a_clientset
              [example.unlabelled; example.a_secret "v2"; example.a_secret ""])
           "default" "pg" eq_refl eq_refl).
  intros s v Hs Hp. vm_compute in Hs.
  destruct Hs as [<- | [<- | [<- | []]]]; vm_compute in Hp; discriminate.
Defined.


(** C10: whenever [saveReleaseToFiles] succeeds the tree has a
    values.schema.json; for a chart without schema it holds the bytes
    [null]. *)
Theorem C10_schema_file_is_always_written (w : World)
    (release : helmrelease.Release) (c : chart.Chart) (d : string)
    (fs fs' : FS) :
  helmrelease.Chart release = Some c ->
  saveReleaseToFiles w (Some release) d fs = (Ok tt, fs') ->
  files fs' !! tree_path w d "values.schema.json"
  = Some (match chart.Schema c with
          | None => bytes_of "null"
          | Some b => Byte.x22 :: base64_encode b ++ [Byte.x22]
          end)
  /\ (chart.Schema c = None ->
      files fs' !! tree_path w d "values.schema.json"
      = Some (bytes_of "null")).
Proof.
  intros Hc H.
  destruct (save_ok _ _ _ _ _ _ Hc H) as (l & Hl & Hfiles).
  apply chart_files_ok in Hl
    as (_ & _ & _ & ym & yv & js & _ & _ & Hjs & ->).
  assert (files fs' !! tree_path w d "values.schema.json" = Some js) as E.
  { rewrite Hfiles.
    change [{| save.Name := "Chart.yaml"; save.Data := ym |};
            {| save.Name := "values.yaml"; save.Data := yv |};
            {| save.Name := "values.schema.json"; save.Data := js |}]
      with ([{| save.Name := "Chart.yaml"; save.Data := ym |};
             {| save.Name := "values.yaml"; save.Data := yv |}]
            ++ [{| save.Name := "values.schema.json"; save.Data := js |}])%list.
    rewrite app_assoc.
    apply (fold_put_last w d _
             {| save.Name := "values.schema.json"; save.Data := js |} []).
    intros g []. }
  unfold json_Marshal_bytes in Hjs. split.
  - rewrite E. destruct (chart.Schema c); inversion Hjs; reflexivity.
  - intros Hnil. rewrite Hnil in Hjs. inversion Hjs; subst. exact E.
Qed.

Lemma C10_witness :
  files
    (snd (saveReleaseToFiles (example.plain_world None)
            (Some (example.a_release (example.a_chart None []) ∅))
            "/tmp/r" example.fs0))
    !! "/tmp/r/values.schema.json"
  = Some (bytes_of "null").
Proof.
  apply (C10_schema_file_is_always_written (example.plain_world None)
           (example.a_release (example.a_chart None []) ∅)
           (example.a_chart None []) "/tmp/r" example.fs0 _ eq_refl).
  - vm_compute. reflexivity.
  - reflexivity.
Defined.

(** * Further properties of the code *)

(** ** The command line *)



Lemma Base_nonempty path : Base path <> "".
Proof.
  unfold Base. destruct (String.eqb path ""); [discriminate |].
  destruct (String.eqb (List.last _ "") "") eqn:E; [discriminate |].
  apply String.eqb_neq. exact E.
Qed.

Lemma package_outputs_ok w dstDir helmRelease releaseDir fs chartFile
    valuesFile fs' :
  package_outputs w dstDir helmRelease releaseDir fs
  = (Ok (chartFile, valuesFile), fs') ->
  exists release file fs1 v,
    helmRelease = Some release
    /\ action_Package_Run w dstDir releaseDir fs = (Ok file, fs1)
    /\ values_step w dstDir release fs1 = (Ok v, fs')
    /\ chartFile = Base file /\ valuesFile = Base v.
Proof.
  rewrite package_outputs_run.
  destruct (wrap _ (action_Package_Run w dstDir releaseDir) fs)
    as [[file | e |] fs1] eqn:H1; try discriminate.
  apply wrap_ok_inv in H1.
  destruct helmRelease as [release |]; [| discriminate].
  destruct (values_step w dstDir release fs1) as [[v | e |] fs2] eqn:H2;
    try discriminate.
  intros H; inversion H; subst. exists release, file, fs1, v. auto.
Qed.

(** A successful conversion, taken apart. *)
Lemma convert_ok w namespace releaseName revision fs out fs' :
  ConvertReleaseVersion w namespace releaseName revision fs = (Ok out, fs') ->
  exists helmRelease d fs1 fs2 fs3,
    reaches_tree w namespace releaseName revision fs helmRelease d fs1
    /\ saveReleaseToFiles w helmRelease d fs1 = (Ok tt, fs2)
    /\ package_outputs w "." helmRelease d fs2 = (Ok out, fs3)
    /\ fs' = os_RemoveAll w d fs3.
Proof.
  rewrite convert_run.
  destruct (GetClientset w) as [c0 | cs] eqn:Hcs; [discriminate |].
  destruct (Secrets_List _ _ _) as [c0 | items] eqn:Hlist; [discriminate |].
  destruct items as [| item0 [| item1 items]]; try discriminate.
  destruct (helmReleaseFromReleaseData w (release_data item0))
    as [helmRelease | c0 |] eqn:Hdec; try discriminate.
  destruct (ioutil_TempDir w "helm-release-" fs) as [[d | c0 |] fs1] eqn:Htmp;
    try discriminate.
  unfold defer. destruct (bind _ _ fs1) as [r fs3] eqn:Hb.
  intros H; inversion H; subst.
  apply bind_ok_inv in Hb as ([] & fs2 & Hsave & Hpk).
  apply wrap_ok_inv in Hsave.
  exists helmRelease, d, fs1, fs2, fs3. repeat split; try assumption.
  exists cs, item0. auto.
Qed.

(** X2: when the process ends with status 0, either cobra answered the
    command line itself (the help flag) and nothing was converted or
    written, or a revision was chosen and converted, and the command
    printed is [helm install] with the release name, the chart file,
    [--values] with the values-file name (which is never empty) and the
    namespace. *)
Theorem X2_exit_0_prints_the_install_command (w : World) (cl : CommandLine)
    (fs : FS) :
  status (InitAndExecute w cl fs) = 0 ->
  (exists out,
     cl = Answered out
     /\ stdout (InitAndExecute w cl fs) = out
     /\ left_fs (InitAndExecute w cl fs) = fs)
  \/ (exists inv releaseName rest revision chartFile valuesFile fs',
        cl = Invoke inv
        /\ args inv = releaseName :: rest
        /\ chosen_revision w inv releaseName revision
        /\ ConvertReleaseVersion w (flag_namespace inv) releaseName revision
             fs
           = (Ok (chartFile, valuesFile), fs')
        /\ left_fs (InitAndExecute w cl fs) = fs'
        /\ valuesFile <> ""
        /\ stdout (InitAndExecute w cl fs)
           = ["Chart has been saved to " +:+ chartFile;
              "To install the chart, run the following command:";
              "";
              strings_Join ["helm"; "install"; releaseName; chartFile;
                            "--values"; valuesFile;
                            "--namespace"; flag_namespace inv];
              ""]).
Proof.
  destruct cl as [out | e | inv].
  - intros _. left. exists out. repeat split.
  - intros H. discriminate H.
  - unfold InitAndExecute, Execute.
    destruct (RunE w inv fs) as [[out | e |] fs'] eqn:Hrun;
      cbn [status stdout left_fs]; try discriminate.
    intros _. right. unfold RunE in Hrun.
    destruct (args inv) as [| releaseName rest] eqn:Hargs;
      [discriminate |].
    apply bind_ok_inv in Hrun as (revision & fs1 & Hrev & Hrun).
    apply bind_ok_inv in Hrun
      as ([chartFile valuesFile] & fs2 & Hconv & Hrun).
    apply wrap_ok_inv in Hconv.
    assert (fs1 = fs /\ chosen_revision w inv releaseName revision)
      as [-> Hchosen].
    { unfold chosen_revision.
      destruct (String.eqb (flag_revision inv) ""); cbn [negb] in Hrev;
        apply wrap_ok_inv in Hrev.
      - inversion Hrev. auto.
      - unfold lift in Hrev.
        destruct (Atoi (flag_revision inv)); inversion Hrev. auto. }
    assert (valuesFile <> "") as Hv.
    { apply convert_ok in Hconv
        as (hr & d & f1 & f2 & f3 & _ & _ & Hpk & _).
      apply package_outputs_ok in Hpk
        as (r & file & f4 & v & _ & _ & _ & _ & ->).
      apply Base_nonempty. }
    exists inv, releaseName, rest, revision, chartFile, valuesFile, fs2.
    rewrite (proj2 (String.eqb_neq _ _) Hv) in Hrun. cbn [negb] in Hrun.
    inversion Hrun; subst.
    split; [reflexivity | split; [exact Hargs |]].
    split; [exact Hchosen | split; [exact Hconv |]].
    split; [reflexivity | split; [exact Hv | reflexivity]].
Qed.

Lemma X2_witness :
  (exists out,
     Invoke (example.invoke "") = Answered out
     /\ stdout (InitAndExecute (example.plain_world None)
                  (example.invoke "") example.fs0) = out
     /\ left_fs (InitAndExecute (example.plain_world None)
                   (example.invoke "") example.fs0) = example.fs0)
  \/ (exists inv releaseName rest revision chartFile valuesFile fs',
        Invoke (example.invoke "") = Invoke inv
        /\ args inv = releaseName :: rest
        /\ chosen_revision (example.plain_world None) inv releaseName
             revision
        /\ ConvertReleaseVersion (example.plain_world None)
             (flag_namespace inv) releaseName revision example.fs0
           = (Ok (chartFile, valuesFile), fs')
        /\ left_fs (InitAndExecute (example.plain_world None)
                      (example.invoke "") example.fs0) = fs'
        /\ valuesFile <> ""
        /\ stdout (InitAndExecute (example.plain_world None)
                     (example.invoke "") example.fs0)
           = ["Chart has been saved to " +:+ chartFile;
              "To install the chart, run the following command:";
              "";
              strings_Join ["helm"; "install"; releaseName; chartFile;
                            "--values"; valuesFile;
                            "--namespace"; flag_namespace inv];
              ""]).
Proof.
  apply (X2_exit_0_prints_the_install_command (example.plain_world None)
           (example.invoke "") example.fs0).
  vm_compute. reflexivity.
Defined.

Lemma path_elements_single_empty s : path_elements s = [""] -> s = "".
Proof.
  destruct s as [| c s]; [reflexivity |]. rewrite path_elements_cons.
  destruct (Ascii.eqb c "/").
  - intros H. inversion H as [H1]. exfalso.
    exact (path_elements_nonempty s H1).
  - destruct (path_elements s); discriminate.
Qed.

Lemma last_cons_nonempty {A} (x : A) l d :
  l <> [] -> List.last (x :: l) d = List.last l d.
Proof. destruct l; [contradiction | reflexivity]. Qed.

Lemma strip_trailing_slashes_id p :
  List.last (path_elements p) "" <> "" -> strip_trailing_slashes p = p.
Proof.
  induction p as [| c p IH]; [reflexivity |].
  rewrite path_elements_cons. cbn [strip_trailing_slashes].
  destruct (Ascii.eqb c "/") eqn:Hc.
  - rewrite last_cons_nonempty by apply path_elements_nonempty.
    intros Hlast. rewrite (IH Hlast).
    destruct p as [| c' p']; [exfalso; apply Hlast; reflexivity |].
    reflexivity.
  - cbn [andb]. pose proof (path_elements_nonempty p) as Hne.
    destruct (path_elements p) as [| h t] eqn:Hp; [contradiction |].
    intros Hlast. f_equal. destruct t as [| h' t'].
    + destruct (string_dec h "") as [-> | Hh].
      * rewrite (path_elements_single_empty p Hp). reflexivity.
      * apply IH. exact Hh.
    + apply IH. rewrite last_cons_nonempty by discriminate.
      rewrite last_cons_nonempty in Hlast by discriminate. exact Hlast.
Qed.

Lemma Base_ends_with n p : ends_with n p -> plain_name n -> Base p = n.
Proof.
  intros [l Hl] Hn. pose proof Hn as (Hne & _).
  assert (List.last (path_elements p) "" = n) as Hlast
    by (rewrite Hl; apply last_last).
  unfold Base.
  rewrite (proj2 (String.eqb_neq p ""))
    by (eapply ends_with_nonempty; [exists l; exact Hl | exact Hn]).
  rewrite strip_trailing_slashes_id by (rewrite Hlast; exact Hne).
  rewrite Hlast. rewrite (proj2 (String.eqb_neq n "")) by exact Hne.
  reflexivity.
Qed.

Lemma values_step_ok w dstDir release fs v fs' :
  values_step w dstDir release fs = (Ok v, fs') ->
  (size (helmrelease.Config release) = 0%nat /\ v = "" /\ fs' = fs)
  \/ (size (helmrelease.Config release) <> 0%nat
      /\ exists configData,
           yaml_Marshal_values w (helmrelease.Config release) = inr configData
           /\ v = Join dstDir "values.yaml"
           /\ files fs'
              = <[resolve w (Join dstDir "values.yaml") := configData]>
                  (files fs)).
Proof.
  unfold values_step.
  destruct (Nat.eqb_spec (size (helmrelease.Config release)) 0) as [E | N];
    cbn [negb].
  - intros H; inversion H. left. auto.
  - intros H. right. split; [exact N |].
    apply bind_ok_inv in H as (configData & fs1 & Hm & H).
    apply bind_ok_inv in H as ([] & fs2 & Hw & H).
    apply wrap_ok_inv in Hm, Hw. unfold lift in Hm.
    destruct (yaml_Marshal_values w (helmrelease.Config release))
      as [| cd]; inversion Hm; subst.
    inversion H; subst. apply WriteFile_ok in Hw.
    exists configData. auto.
Qed.

(** X3: a successful conversion saved the tree of the one matching
    release, packaged it, and returns the base name of the archive saved in
    the working directory; with override values the values file holds their
    YAML serialization and is named values.yaml, without them the name
    returned is [.]. *)
Theorem X3_outputs_of_a_successful_conversion (w : World)
    (namespace releaseName : string) (revision : Z) (fs : FS)
    (chartFile valuesFile : string) (fs' : FS) :
  ConvertReleaseVersion w namespace releaseName revision fs
  = (Ok (chartFile, valuesFile), fs') ->
  exists release d fs1 fs2 name archive,
    reaches_tree w namespace releaseName revision fs (Some release) d fs1
    /\ saveReleaseToFiles w (Some release) d fs1 = (Ok tt, fs2)
    /\ package_Run w fs2 (resolve w d) = inr (name, archive)
    /\ chartFile = Base (Join (resolve w ".") name)
    /\ (plain_name name -> chartFile = name)
    /\ (size (helmrelease.Config release) = 0%nat ->
        valuesFile = "."
        /\ (under (resolve w d) (Join (resolve w ".") name) = false ->
            files fs' !! Join (resolve w ".") name = Some archive))
    /\ (size (helmrelease.Config release) <> 0%nat ->
        exists configData,
          yaml_Marshal_values w (helmrelease.Config release) = inr configData
          /\ valuesFile = "values.yaml"
          /\ (under (resolve w d) (resolve w "values.yaml") = false ->
              files fs' !! resolve w "values.yaml" = Some configData)
          /\ (Join (resolve w ".") name <> resolve w "values.yaml" ->
              under (resolve w d) (Join (resolve w ".") name) = false ->
              files fs' !! Join (resolve w ".") name = Some archive)).
Proof.
  intros H.
  apply convert_ok in H as (hr & d & fs1 & fs2 & fs3 & Hreach & Hsave & Hpk & ->).
  apply package_outputs_ok in Hpk
    as (release & file & fs4 & v & -> & Hrun & Hval & -> & ->).
  apply Package_Run_ok in Hrun as (name & archive & Hrun & -> & ->).
  exists release, d, fs1, fs2, name, archive.
  split; [exact Hreach | split; [exact Hsave | split; [exact Hrun |]]].
  split; [reflexivity |]. split.
  { intros Hn. apply Base_ends_with; [| exact Hn].
    apply ends_with_Join; [exact Hn | apply ends_with_plain; exact Hn]. }
  apply values_step_ok in Hval
    as [(E & -> & ->) | (N & configData & Hm & -> & Hfiles)].
  - split; [| intros N; contradiction].
    intros _. split; [reflexivity |].
    intros Hu. unfold os_RemoveAll. rewrite (remove_all_other _ _ _ Hu).
    cbn. apply lookup_insert_eq.
  - split; [intros E; contradiction |].
    intros _. exists configData.
    split; [exact Hm | split; [reflexivity |]].
    change (Join "." "values.yaml") with "values.yaml" in Hfiles.
    split.
    + intros Hu. unfold os_RemoveAll. rewrite (remove_all_other _ _ _ Hu).
      rewrite Hfiles. apply lookup_insert_eq.
    + intros Hne Hu. unfold os_RemoveAll.
      rewrite (remove_all_other _ _ _ Hu), Hfiles.
      rewrite lookup_insert_ne by congruence. cbn. apply lookup_insert_eq.
Qed.

Lemma X3_witness :
  let w := example.overriding_world example.no_fault in
  let fs' :=
    snd (ConvertReleaseVersion w "default" "pg" 1 example.fs0) in
  exists release d fs1 fs2 name archive,
    reaches_tree w "default" "pg" 1 example.fs0 (Some release) d fs1
    /\ saveReleaseToFiles w (Some release) d fs1 = (Ok tt, fs2)
    /\ package_Run w fs2 (resolve w d) = inr (name, archive)
    /\ "pg-1.0.0.tgz" = Base (Join (resolve w ".") name)
    /\ (plain_name name -> "pg-1.0.0.tgz" = name)
    /\ (size (helmrelease.Config release) = 0%nat ->
        "values.yaml" = "."
        /\ (under (resolve w d) (Join (resolve w ".") name) = false ->
            files fs' !! Join (resolve w ".") name = Some archive))
    /\ (size (helmrelease.Config release) <> 0%nat ->
        exists configData,
          yaml_Marshal_values w (helmrelease.Config release) = inr configData
          /\ "values.yaml" = "values.yaml"
          /\ (under (resolve w d) (resolve w "values.yaml") = false ->
              files fs' !! resolve w "values.yaml" = Some configData)
          /\ (Join (resolve w ".") name <> resolve w "values.yaml" ->
              under (resolve w d) (Join (resolve w ".") name) = false ->
              files fs' !! Join (resolve w ".") name = Some archive)).
Proof.
  intros w fs'.
  apply (X3_outputs_of_a_successful_conversion w "default" "pg" 1
           example.fs0 "pg-1.0.0.tgz" "values.yaml" fs').
  vm_compute. reflexivity.
Defined.

(** ** Nil pointers *)

Lemma collect_nil_entry l : forall acc, In None l -> collect l acc = None.
Proof.
  induction l as [| [f |] l IH]; intros acc Hin.
  - contradiction.
  - cbn [collect]. apply IH. destruct Hin as [H | H]; [discriminate | exact H].
  - reflexivity.
Qed.

Lemma save_panics w helmRelease d fs :
  (helmRelease = None
   \/ (exists r, helmRelease = Some r /\ helmrelease.Chart r = None)
   \/ (exists r c,
         helmRelease = Some r /\ helmrelease.Chart r = Some c
         /\ (In None (chart.Files c) \/ In None (chart.Templates c)))) ->
  saveReleaseToFiles w helmRelease d fs = (Panic, fs).
Proof.
  intros [-> | [(r & -> & Hc) | (r & c & -> & Hc & Hnil)]];
    unfold saveReleaseToFiles; [reflexivity | rewrite Hc; reflexivity |].
  rewrite Hc, bind_run. unfold chart_files.
  destruct Hnil as [Hnil | Hnil].
  - rewrite (collect_nil_entry _ _ Hnil). reflexivity.
  - destruct (collect (chart.Files c) []) as [files1 |]; [| reflexivity].
    rewrite (collect_nil_entry _ _ Hnil). reflexivity.
Qed.

Lemma remove_fresh_files d fs fs1 :
  occupied d fs = false -> files fs1 = files fs ->
  files (fs_remove_all d fs1) = files fs.
Proof.
  intros Hfresh Hfiles. apply map_eq. intros p.
  destruct (under d p) eqn:Hu.
  - rewrite (proj1 (remove_all_under _ fs1 _ Hu)).
    symmetry. eapply not_occupied; eassumption.
  - rewrite (remove_all_other _ _ _ Hu), Hfiles. reflexivity.
Qed.

(** X4: a record that decodes to a nil release, a release without chart,
    or a chart with a nil file entry makes [ConvertReleaseVersion] panic
    before anything is written; the temporary directory is removed all the
    same, no file is changed, and the process ends with status 2. *)
Theorem X4_nil_record_panics_and_cleans_up (w : World)
    (namespace releaseName : string) (revision : Z) (fs : FS)
    (helmRelease : option helmrelease.Release) (d : string) (fs1 : FS) :
  reaches_tree w namespace releaseName revision fs helmRelease d fs1 ->
  (helmRelease = None
   \/ (exists r, helmRelease = Some r /\ helmrelease.Chart r = None)
   \/ (exists r c,
         helmRelease = Some r /\ helmrelease.Chart r = Some c
         /\ (In None (chart.Files c) \/ In None (chart.Templates c)))) ->
  let run := ConvertReleaseVersion w namespace releaseName revision fs in
  fst run = Panic
  /\ files (snd run) = files fs
  /\ (forall p, under (resolve w d) p = true -> p ∉ dirs (snd run))
  /\ (forall inv rest,
        args inv = releaseName :: rest ->
        flag_namespace inv = namespace ->
        chosen_revision w inv releaseName revision ->
        status (InitAndExecute w inv fs) = 2).
Proof.
  intros (cs & item0 & Hcs & Hlist & Hdec & Htmp) Hnil run.
  assert (run = (Panic, fs_remove_all (resolve w d) fs1)) as Hrun.
  { subst run. rewrite convert_run, Hcs, Hlist, Hdec, Htmp. unfold defer.
    rewrite bind_run. unfold wrap at 1.
    rewrite (save_panics w helmRelease d fs1 Hnil). reflexivity. }
  apply TempDir_ok in Htmp as (Hfresh & Hfiles & _).
  rewrite Hrun. cbn [fst snd]. split; [reflexivity | split; [| split]].
  - apply remove_fresh_files; assumption.
  - intros p Hu. apply remove_all_under. exact Hu.
  - intros inv rest Hargs Hns Hrev. unfold InitAndExecute, Execute, RunE.
    rewrite Hargs, Hns. rewrite bind_run. unfold chosen_revision in Hrev.
    rewrite Hns in Hrev.
    destruct (String.eqb (flag_revision inv) ""); cbn [negb];
      unfold wrap at 1, lift; rewrite Hrev; rewrite bind_run;
      unfold wrap at 1; fold run; rewrite Hrun; reflexivity.
Qed.

(** ** The errors of [saveReleaseToFiles] *)

Lemma write_files_err w d l : forall fs e fs',
  write_files w d l fs = (Err e, fs') ->
  exists c f,
    In f l
    /\ (e = Wrap c ("create dir " +:+ Dir (Join d (save.Name f)))
        \/ e = Wrap c ("write file " +:+ Join d (save.Name f))).
Proof.
  induction l as [| f l IH]; intros fs e fs' H; [discriminate |].
  cbn [write_files] in H.
  apply bind_err_inv in H as [H | ([] & fs1 & _ & H)].
  { apply wrap_err_inv in H as (c & -> & _). exists c, f.
    split; [left; reflexivity | left; reflexivity]. }
  apply bind_err_inv in H as [H | ([] & fs2 & _ & H)].
  { apply wrap_err_inv in H as (c & -> & _). exists c, f.
    split; [left; reflexivity | right; reflexivity]. }
  apply IH in H as (c & g & Hg & He). exists c, g.
  split; [right; exact Hg | exact He].
Qed.

Lemma chart_files_err w c fs e fs' :
  chart_files w c fs = (Err e, fs') ->
  exists c0, e = Wrap c0 "marshal chart metadata"
             \/ e = Wrap c0 "marshal chart values".
Proof.
  unfold chart_files.
  destruct (collect (chart.Files c) []) as [files1 |]; [| discriminate].
  destruct (collect (chart.Templates c) files1) as [files2 |];
    [| discriminate].
  intros H. apply bind_err_inv in H as [H | (ym & fs1 & _ & H)].
  { apply wrap_err_inv in H as (c0 & -> & _). eauto. }
  apply bind_err_inv in H as [H | (yv & fs2 & _ & H)].
  { apply wrap_err_inv in H as (c0 & -> & _). eauto. }
  apply bind_err_inv in H as [H | (js & fs3 & _ & H)]; [| discriminate].
  apply wrap_err_inv in H as (c0 & _ & H). unfold lift in H.
  destruct (chart.Schema c); discriminate.
Qed.

(** X5: an error of [saveReleaseToFiles] is either a marshal error, and
    then nothing was written, or names the directory or file of one of the
    chart's names; marshalling the schema never fails. *)
Theorem X5_save_marshals_before_it_writes (w : World)
    (release : helmrelease.Release) (c : chart.Chart) (d : string)
    (fs : FS) (e : error) (fs' : FS) :
  helmrelease.Chart release = Some c ->
  saveReleaseToFiles w (Some release) d fs = (Err e, fs') ->
  (exists c0,
     (e = Wrap c0 "marshal chart metadata"
      \/ e = Wrap c0 "marshal chart values")
     /\ fs' = fs)
  \/ (exists c0 n,
        In n (chart_names c)
        /\ (e = Wrap c0 ("create dir " +:+ Dir (Join d n))
            \/ e = Wrap c0 ("write file " +:+ Join d n))).
Proof.
  intros Hc H. unfold saveReleaseToFiles in H. rewrite Hc in H.
  apply bind_err_inv in H as [H | (l & fs1 & Hl & H)].
  - left. pose proof (chart_files_state _ _ _ _ _ H) as ->.
    apply chart_files_err in H as (c0 & He). exists c0. auto.
  - right. apply write_files_err in H as (c0 & f & Hf & He).
    exists c0, (save.Name f). split; [| exact He].
    rewrite <- (chart_files_names _ _ _ _ _ Hl). apply in_map. exact Hf.
Qed.

Lemma X5_witness :
  let w :=
    example.a_world (inr (example.a_clientset []))
      (example.a_release (example.a_chart None []) ∅) example.readme_fault in
  let e :=
    Wrap (Fundamental "permission denied") "write file /tmp/r/README.md" in
  (exists c0,
     (e = Wrap c0 "marshal chart metadata"
      \/ e = Wrap c0 "marshal chart values")
     /\ snd (saveReleaseToFiles w
               (Some (example.a_release (example.a_chart None []) ∅))
               "/tmp/r" example.fs0) = example.fs0)
  \/ (exists c0 n,
        In n (chart_names (example.a_chart None []))
        /\ (e = Wrap c0 ("create dir " +:+ Dir (Join "/tmp/r" n))
            \/ e = Wrap c0 ("write file " +:+ Join "/tmp/r" n))).
Proof.
  intros w e.
  apply (X5_save_marshals_before_it_writes w
           (example.a_release (example.a_chart None []) ∅)
           (example.a_chart None []) "/tmp/r" example.fs0 _ _ eq_refl).
  vm_compute. reflexivity.
Defined.

Lemma X4_witness :
  let run :=
    ConvertReleaseVersion (example.store_world [example.null_secret])
      "default" "pg" 1 example.fs0 in
  fst run = Panic /\ files (snd run) = files example.fs0.
Proof.
  intros run.
  pose proof (X4_nil_record_panics_and_cleans_up
                (example.store_world [example.null_secret])
                "default" "pg" 1 example.fs0 None "/tmp/helm-release-042"
                (snd (ioutil_TempDir
                        (example.store_world [example.null_secret])
                        "helm-release-" example.fs0))) as H.
  destruct H as (H1 & H2 & _).
  - exists (example.a_clientset [example.null_secret]), example.null_secret.
    split; [| split; [| split]]; vm_compute; reflexivity.
  - left. reflexivity.
  - split; [exact H1 | exact H2].
Defined.

(** ** The scan does not depend on the order of the list *)

Lemma latest_step_comm a s1 s2 :
  latest_step (latest_step a s1) s2 = latest_step (latest_step a s2) s1.
Proof.
  rewrite !latest_step_parse.
  destruct (parse_int (version_label s1)), (parse_int (version_label s2));
    try reflexivity. lia.
Qed.

Lemma scan_permutation items items' :
  Permutation items items' ->
  forall a, fold_left latest_step items a = fold_left latest_step items' a.
Proof.
  induction 1 as [| s l l' _ IH | s1 s2 l | l1 l2 l3 _ IH1 _ IH2]; intros a.
  - reflexivity.
  - cbn [fold_left]. apply IH.
  - cbn [fold_left]. rewrite latest_step_comm. reflexivity.
  - rewrite IH1. apply IH2.
Qed.

Lemma filter_permutation {A} (f : A -> bool) l l' :
  Permutation l l' -> Permutation (List.filter f l) (List.filter f l').
Proof.
  induction 1 as [| x l l' _ IH | x y l | l1 l2 l3 _ IH1 _ IH2].
  - constructor.
  - cbn [List.filter]. destruct (f x); [constructor |]; exact IH.
  - cbn [List.filter]. destruct (f x), (f y);
      try apply Permutation_refl. constructor.
  - eapply Permutation_trans; eassumption.
Qed.

(** X6: the latest revision does not depend on the order in which the
    secrets are listed. *)
Theorem X6_latest_revision_ignores_the_listing_order (w w' : World)
    (cs cs' : Clientset) (namespace releaseName : string) :
  GetClientset w = inr cs ->
  GetClientset w' = inr cs' ->
  List_fault cs namespace (release_labels releaseName) = None ->
  List_fault cs' namespace (release_labels releaseName) = None ->
  Permutation (stored cs namespace) (stored cs' namespace) ->
  FindLatestReleaseVersion w namespace releaseName
  = FindLatestReleaseVersion w' namespace releaseName.
Proof.
  intros Hc Hc' Hl Hl' Hperm.
  rewrite (find_latest_run w cs), (find_latest_run w' cs') by assumption.
  f_equal. apply scan_permutation. apply filter_permutation. exact Hperm.
Qed.

Lemma X6_witness :
  FindLatestReleaseVersion
    (example.store_world [example.a_secret "2"; example.a_secret "10"])
    "default" "pg"
  = FindLatestReleaseVersion
      (example.store_world [example.a_secret "10"; example.a_secret "2"])
      "default" "pg".
Proof.
  apply (X6_latest_revision_ignores_the_listing_order
           (example.store_world [example.a_secret "2"; example.a_secret "10"])
           (example.store_world [example.a_secret "10"; example.a_secret "2"])
           (example.a_clientset [example.a_secret "2"; example.a_secret "10"])
           (example.a_clientset [example.a_secret "10"; example.a_secret "2"])
           "default" "pg" eq_refl eq_refl eq_refl eq_refl).
  apply perm_swap.
Defined.

(** ** Early failures *)

(** X8: an error of the clientset, of the listing, of the match count, of
    decoding or of the creation of the temporary directory leaves the file
    system exactly as it was. *)
Theorem X8_early_failures_leave_the_file_system (w : World)
    (namespace releaseName : string) (revision : Z) (fs : FS) (e : error)
    (fs' : FS) :
  ConvertReleaseVersion w namespace releaseName revision fs = (Err e, fs') ->
  ((exists n, e = found_matching n)
   \/ exists c msg,
        e = Wrap c msg
        /\ In msg ["get clientset"; "list secrets";
                   "parse release info from secret"; "create temp dir"]) ->
  fs' = fs.
Proof.
  intros Hrun Hearly. rewrite convert_run in Hrun.
  destruct (GetClientset w) as [c0 | cs]; [inversion Hrun; reflexivity |].
  destruct (Secrets_List _ _ _) as [c0 | items];
    [inversion Hrun; reflexivity |].
  destruct items as [| item0 [| item1 items]];
    [inversion Hrun; reflexivity | | inversion Hrun; reflexivity].
  destruct (helmReleaseFromReleaseData w (release_data item0))
    as [helmRelease | c0 |]; [| inversion Hrun; reflexivity | discriminate].
  destruct (ioutil_TempDir w "helm-release-" fs) as [[d | c0 |] fs1] eqn:Htmp;
    [| | discriminate].
  2:{ inversion Hrun; subst. eapply TempDir_fail; [exact Htmp |].
      intros d Hd; discriminate Hd. }
  exfalso. unfold defer in Hrun.
  destruct (bind _ _ fs1) as [r fs2] eqn:Hb. inversion Hrun; subst r fs'.
  assert (exists c msg,
            e = Wrap c msg
            /\ In msg ["save release to files"; "package client run";
                       "marshal config data"; "write values file"])
    as (c & msg & -> & Hlate).
  { apply bind_err_inv in Hb as [Hb | (u & fs3 & _ & Hb)].
    - apply wrap_err_inv in Hb as (c & -> & _). eexists _, _.
      split; [reflexivity | simpl; auto].
    - apply package_outputs_err in Hb as (c & [-> | [-> | ->]]);
        eexists _, _; (split; [reflexivity | simpl; auto]). }
  destruct Hearly as [[n Hn] | (c' & msg' & Heq & Hin)];
    [discriminate Hn |].
  inversion Heq; subst. simpl in Hlate, Hin.
  repeat (destruct Hlate as [Hlate | Hlate]; [subst msg' |]);
    try contradiction;
    repeat (destruct Hin as [Hin | Hin]; [discriminate Hin |]);
    contradiction.
Qed.

Lemma X8_witness :
  snd (ConvertReleaseVersion example.offline_world "default" "pg" 1
         example.fs0) = example.fs0.
Proof.
  apply (X8_early_failures_leave_the_file_system example.offline_world
           "default" "pg" 1 example.fs0
           (Wrap (Fundamental "no kubeconfig") "get clientset")).
  - reflexivity.
  - right. exists (Fundamental "no kubeconfig"), "get clientset".
    split; [reflexivity | left; reflexivity].
Defined.

(** ** The schema file *)

Lemma save_schema_entry w release c d fs fs' :
  helmrelease.Chart release = Some c ->
  saveReleaseToFiles w (Some release) d fs = (Ok tt, fs') ->
  exists js,
    json_Marshal_bytes (chart.Schema c) = inr js
    /\ files fs' !! tree_path w d "values.schema.json" = Some js.
Proof.
  intros Hc H.
  destruct (save_ok _ _ _ _ _ _ Hc H) as (l & Hl & Hfiles).
  apply chart_files_ok in Hl
    as (_ & _ & _ & ym & yv & js & _ & _ & Hjs & ->).
  exists js. split; [exact Hjs |]. rewrite Hfiles.
  change [{| save.Name := "Chart.yaml"; save.Data := ym |};
          {| save.Name := "values.yaml"; save.Data := yv |};
          {| save.Name := "values.schema.json"; save.Data := js |}]
    with ([{| save.Name := "Chart.yaml"; save.Data := ym |};
           {| save.Name := "values.yaml"; save.Data := yv |}]
          ++ [{| save.Name := "values.schema.json"; save.Data := js |}])%list.
  rewrite app_assoc.
  apply (fold_put_last w d _
           {| save.Name := "values.schema.json"; save.Data := js |} []).
  intros g [].
Qed.

(** X9: for a chart with a schema, the values.schema.json written is a
    double-quoted text whose base64 decoding is the schema. *)
Theorem X9_schema_file_decodes_to_the_schema (w : World)
    (release : helmrelease.Release) (c : chart.Chart) (schema : bytes)
    (d : string) (fs fs' : FS) :
  helmrelease.Chart release = Some c ->
  chart.Schema c = Some schema ->
  saveReleaseToFiles w (Some release) d fs = (Ok tt, fs') ->
  exists text,
    files fs' !! tree_path w d "values.schema.json"
    = Some (Byte.x22 :: text ++ [Byte.x22])
    /\ base64_NewDecoder text = (schema, None).
Proof.
  intros Hc Hs Hsave. exists (base64_encode schema). split.
  - destruct (save_schema_entry _ _ _ _ _ _ Hc Hsave) as (js & Hjs & H).
    rewrite Hs in Hjs. inversion Hjs; subst. exact H.
  - apply base64_roundtrip.
Qed.

Lemma X9_witness :
  exists text,
    files
      (snd (saveReleaseToFiles (example.plain_world (Some (bytes_of "{}")))
              (Some (example.a_release
                       (example.a_chart (Some (bytes_of "{}")) []) ∅))
              "/tmp/r" example.fs0))
      !! tree_path (example.plain_world (Some (bytes_of "{}"))) "/tmp/r"
           "values.schema.json"
    = Some (Byte.x22 :: text ++ [Byte.x22])
    /\ base64_NewDecoder text = (bytes_of "{}", None).
Proof.
  apply (X9_schema_file_decodes_to_the_schema
           (example.plain_world (Some (bytes_of "{}")))
           (example.a_release (example.a_chart (Some (bytes_of "{}")) []) ∅)
           (example.a_chart (Some (bytes_of "{}")) []) (bytes_of "{}")
           "/tmp/r" example.fs0 _ eq_refl eq_refl).
  vm_compute. reflexivity.
Defined.

(** ** The range of a revision *)

Lemma parse_int_range s v : parse_int s = Some v -> int_min <= v <= int_max.
Proof.
  unfold parse_int. destruct s as [| c rest]; [discriminate |].
  cbv zeta.
  destruct (if Ascii.eqb c "-" || Ascii.eqb c "+" then rest
            else String c rest); [discriminate |].
  destruct (parse_digits 0 _) as [n |]; [| discriminate].
  destruct (_ && _) eqn:E; [| discriminate].
  intros H; inversion H; subst. apply andb_prop in E as [E1 E2].
  apply Z.leb_le in E1, E2. lia.
Qed.

(** X10: the revision [FindLatestReleaseVersion] returns is never negative
    and fits the 64-bit [int]. *)
Theorem X10_latest_revision_fits_the_int (w : World)
    (namespace releaseName : string) (r : Z) :
  FindLatestReleaseVersion w namespace releaseName = Ok r ->
  0 <= r <= int_max.
Proof.
  unfold FindLatestReleaseVersion.
  destruct (GetClientset w) as [e | cs]; [discriminate |].
  destruct (Secrets_List _ _ _) as [e | items]; [discriminate |].
  intros H; inversion H; subst.
  destruct (scan_spec items 0) as (H1 & _ & [H3 | H3]); cbn zeta in *.
  - rewrite H3. unfold int_max. lia.
  - split; [exact H1 |].
    apply list_elem_of_In, list_elem_of_omap in H3 as (s & _ & Hs).
    apply parse_int_range in Hs. lia.
Qed.

Lemma X10_witness :
  0 <= 10 <= int_max.
Proof.
  apply (X10_latest_revision_fits_the_int
           (example.store_world [example.a_secret "2"; example.a_secret "10"])
           "default" "pg" 10).
  vm_compute. reflexivity.
Defined.

(** ** Directories come before files *)







(** ** The files of the chart *)

(** X12: for the one matching revision, every file and template of
    the decoded release is in the tree with exactly its [Data] bytes unless
    a later entry is written to the same path; Chart.yaml and values.yaml
    hold the YAML serializations of the decoded metadata and default values;
    and the conversion goes on from this tree. *)
Theorem X12_tree_holds_the_decoded_files (w : World)
    (namespace releaseName : string) (revision : Z) (fs : FS)
    (release : helmrelease.Release) (c : chart.Chart) (d : string)
    (fs1 fs2 : FS) :
  reaches_tree w namespace releaseName revision fs (Some release) d fs1 ->
  helmrelease.Chart release = Some c ->
  saveReleaseToFiles w (Some release) d fs1 = (Ok tt, fs2) ->
  (forall l1 f l2,
     (present (chart.Files c) ++ present (chart.Templates c))%list
     = (l1 ++ f :: l2)%list ->
     (forall n,
        In n (map chart.Name l2
              ++ ["Chart.yaml"; "values.yaml"; "values.schema.json"]) ->
        tree_path w d n <> tree_path w d (chart.Name f)) ->
     files fs2 !! tree_path w d (chart.Name f) = Some (chart.Data f))
  /\ (exists chartMetadata chartValues,
        yaml_Marshal_metadata w (chart.Metadata_ c) = inr chartMetadata
        /\ yaml_Marshal_values w (chart.Values c) = inr chartValues
        /\ files fs2 !! tree_path w d "Chart.yaml" = Some chartMetadata
        /\ files fs2 !! tree_path w d "values.yaml" = Some chartValues)
  /\ ConvertReleaseVersion w namespace releaseName revision fs
     = (let '(r, fs3) := package_outputs w "." (Some release) d fs2 in
        (r, os_RemoveAll w d fs3)).
Proof.
  intros (cs & item0 & Hcs & Hlist & Hdec & Htmp) Hc Hsave.
  destruct (save_ok _ _ _ _ _ _ Hc Hsave) as (l & Hl & Hfiles).
  apply chart_files_ok in Hl
    as (_ & _ & _ & ym & yv & js & Hym & Hyv & _ & ->).
  set (CY := {| save.Name := "Chart.yaml"; save.Data := ym |}) in *.
  set (VY := {| save.Name := "values.yaml"; save.Data := yv |}) in *.
  set (SJ := {| save.Name := "values.schema.json"; save.Data := js |}) in *.
  split; [| split].
  - intros l1 f l2 Hsplit Hlater. rewrite Hfiles, Hsplit, map_app.
    cbn [map]. rewrite <- app_assoc. cbn [app].
    apply (fold_put_last w d (map as_chartFile l1) (as_chartFile f)).
    intros g Hg. apply Hlater. apply in_app_or in Hg as [Hg | Hg].
    + apply in_or_app. left. apply in_map_iff in Hg as (x & <- & Hx).
      apply in_map_iff. exists x. split; [reflexivity | exact Hx].
    + apply in_or_app. right.
      destruct Hg as [<- | [<- | [<- | []]]]; simpl; auto.
  - exists ym, yv. repeat split; try assumption; rewrite Hfiles.
    + apply (fold_put_last w d _ CY [VY; SJ]).
      intros g [<- | [<- | []]] Heq;
        apply tree_path_plain_inj in Heq; try discriminate Heq;
        auto using plain_Chart_yaml, plain_values_yaml,
          plain_values_schema_json.
    + change [CY; VY; SJ] with ([CY] ++ VY :: [SJ])%list.
      rewrite app_assoc. apply (fold_put_last w d _ VY [SJ]).
      intros g [<- | []] Heq.
      apply tree_path_plain_inj in Heq; try discriminate Heq;
        auto using plain_values_yaml, plain_values_schema_json.
  - rewrite convert_run, Hcs, Hlist, Hdec, Htmp. unfold defer.
    rewrite bind_run. unfold wrap at 1. rewrite Hsave. reflexivity.
Qed.

Lemma X12_witness :
  let w := example.plain_world None in
  let fs1 := snd (ioutil_TempDir w "helm-release-" example.fs0) in
  let fs2 :=
    snd (saveReleaseToFiles w
           (Some (example.a_release (example.a_chart None []) ∅))
           "/tmp/helm-release-042" fs1) in
  files fs2 !! "/tmp/helm-release-042/templates/svc.yaml"
  = Some (bytes_of "kind: Service").
Proof.
  cbv zeta.
  refine (proj1 (X12_tree_holds_the_decoded_files (example.plain_world None)
                   "default" "pg" 1 example.fs0
                   (example.a_release (example.a_chart None []) ∅)
                   (example.a_chart None []) "/tmp/helm-release-042"
                   _ _ _ eq_refl _)
            [example.readme] example.service [] eq_refl _).
  - exists (example.a_clientset [example.a_secret "1"]), (example.a_secret "1").
    split; [| split; [| split]]; vm_compute; reflexivity.
  - vm_compute. reflexivity.
  - intros n Hn. vm_compute in Hn.
    destruct Hn as [<- | [<- | [<- | []]]]; vm_compute; discriminate.
Defined.

(** ** The record of a secret *)

(** X13: [helmReleaseFromReleaseData] decodes standard base64 first: on the
    base64 text of any bytes [gz] the gzip reader is handed exactly [gz],
    without a read error, and the result is that of the gzip reader, of
    reading it to its end and of [json.Unmarshal], in this order, each
    failure under its own context message. *)
Theorem X13_record_is_read_through_base64 (w : World) (gz : bytes) :
  helmReleaseFromReleaseData w (base64_encode gz)
  = match gzip_NewReader w (gz, None) with
    | inl err => Err (Wrap err "create gzip reader")
    | inr gzreader =>
        match ReadAll gzreader with
        | inl err => Err (Wrap err "read from gzip reader")
        | inr releaseData =>
            match json_Unmarshal w releaseData with
            | inl err => Err (Wrap err "unmarshal release data")
            | inr release => Ok release
            end
        end
    end.
Proof.
  unfold helmReleaseFromReleaseData. rewrite base64_roundtrip. reflexivity.
Qed.
